(** * Delivery-Slot-Picker: date window, grouping and availability rules

    A shallow embedding of the three functions of
    [DeliverySlotPicker/src/App.js] that carry the logic of the widget:
    [generateDates], [groupDates] and [isUnavailable]; and of what the
    components do with them: the keys and the update of [handleSelect], and
    the class names, the text and the click handler of [Slot].

    - A JavaScript [Date] is represented by the number of whole local
      calendar days since 1970-01-01.  The time of day, which [new Date()]
      fixes once and [setDate] leaves alone, plays no role in the code.
    - [dates.push(new Date(date))] stores a copy, so the later
      [date.setDate(...)] calls do not reach the stored elements: the array
      is a list of values and the cursor a value threaded through the loops.
    - The loops are run by a fuel-indexed [while] combinator.  [None] means
      that the guard still held when the fuel ran out; a loop that yields
      [None] for every amount of fuel does not terminate. *)

From Stdlib Require Import String Ascii ZArith List Bool Lia Sorted.
Import ListNotations.
Local Open Scope Z_scope.

(** ** The JavaScript values the code computes with *)

Module JS.

(** Numbers, as far as the code meets them: integers and [NaN]
    (the result of [% 0]). *)
Inductive number : Type :=
| Fin (z : Z)
| NaN.

(** [a % b]: the remainder takes the sign of the dividend; [NaN] for a zero
    divisor. *)
Definition rem (a b : number) : number :=
  match a, b with
  | Fin x, Fin y => if y =? 0 then NaN else Fin (Z.rem x y)
  | _, _ => NaN
  end.

(** [a - b] *)
Definition sub (a b : number) : number :=
  match a, b with
  | Fin x, Fin y => Fin (x - y)
  | _, _ => NaN
  end.

(** [a < b]: false as soon as one side is [NaN]. *)
Definition lt (a b : number) : bool :=
  match a, b with
  | Fin x, Fin y => x <? y
  | _, _ => false
  end.

(** [a !== b]: [NaN] differs from everything, itself included. *)
Definition strict_neq (a b : number) : bool :=
  match a, b with
  | Fin x, Fin y => negb (x =? y)
  | _, _ => true
  end.

(** [Array.prototype.slice(start, end)] on integer arguments: a negative
    index counts from the end, both indices are clamped to the array. *)
Definition clamp_index (len k : Z) : Z :=
  if k <? 0 then Z.max (len + k) 0 else Z.min k len.

Definition slice {A : Type} (l : list A) (start stop : Z) : list A :=
  let len := Z.of_nat (length l) in
  let k := clamp_index len start in
  let final := clamp_index len stop in
  firstn (Z.to_nat (final - k)) (skipn (Z.to_nat k) l).

(** [Math.ceil(n / d)] for an integer [n] and a positive integer [d]; the
    quotients the code forms, of a day of the month by 7, are far from the
    range where rounding of the division could matter. *)
Definition ceil_div (n d : Z) : Z := - ((- n) / d).

End JS.

(** ** Dates *)

Definition Date : Type := Z.

(** [date.getDay()]: 0 is Sunday; 1970-01-01 was a Thursday. *)
Definition getDay (date : Date) : Z := (date + 4) mod 7.

(** [date.setDate(date.getDate() + n)]: [n] calendar days later. *)
Definition addDays (date : Date) (n : Z) : Date := date + n.

(** [date.getDate()]: the day of the month in the proleptic Gregorian
    calendar, computed from the day number era by era (400 years,
    146097 days), with the year starting on 1 March. *)
Definition getDate (date : Date) : Z :=
  let z := date + 719468 in
  let era := z / 146097 in
  let doe := z - era * 146097 in
  let yoe := (doe - doe / 1460 + doe / 36524 - doe / 146096) / 365 in
  let doy := doe - (365 * yoe + yoe / 4 - yoe / 100) in
  let mp := (5 * doy + 2) / 153 in
  doy - (153 * mp + 2) / 5 + 1.

(** ** Loops *)

Section While.
Context {S : Type}.
Variable cond : S -> bool.
Variable body : S -> S.

(** [while (cond) body], run for at most [fuel] iterations. *)
Fixpoint while (fuel : nat) (s : S) : option S :=
  if cond s then
    match fuel with
    | O => None
    | Datatypes.S fuel' => while fuel' (body s)
    end
  else Some s.

(** The state after [n] iterations of the body. *)
Fixpoint iterate (n : nat) (s : S) : S :=
  match n with
  | O => s
  | Datatypes.S n' => iterate n' (body s)
  end.
End While.

(** ** generateDates *)

(** The variables of [generateDates] that the loops read and write. *)
Record GenState : Type := mkGen {
  gen_dates : list Date;   (* dates *)
  gen_date : Date;         (* date, the walk cursor *)
  gen_count : Z            (* validDays in the first loop, i in the second *)
}.

(** [while (validDays < 28) { ... }] *)
Definition window_cond (st : GenState) : bool := gen_count st <? 28.

Definition window_body (st : GenState) : GenState :=
  let '(dates, validDays) :=
    if negb (getDay (gen_date st) =? 0)
    then (gen_dates st ++ [gen_date st], gen_count st + 1)
    else (gen_dates st, gen_count st) in
  mkGen dates (addDays (gen_date st) 1) validDays.

(** [for (let i = 0; i < extraDaysNeeded; i++) { ... }] *)
Definition padding_cond (extraDaysNeeded : JS.number) (st : GenState) : bool :=
  JS.lt (JS.Fin (gen_count st)) extraDaysNeeded.

Definition padding_body (st : GenState) : GenState :=
  let date := addDays (gen_date st) 1 in
  let '(dates, i) :=
    if negb (getDay date =? 0)
    then (gen_dates st ++ [date], gen_count st)
    else (gen_dates st, gen_count st - 1) in
  mkGen dates date (i + 1).

(** Iterations granted to the two loops.  [while_fuel_mono] below shows that
    granting more does not change a result. *)
Definition window_fuel : nat := 57.

Definition padding_fuel (extraDaysNeeded : JS.number) : nat :=
  match extraDaysNeeded with
  | JS.Fin e => Z.to_nat (2 * e + 1)
  | JS.NaN => 0
  end.

(** [generateDates(groupSize)], with the clock reading [new Date()] passed
    in as [today]. *)
Definition generateDates (today : Date) (groupSize : Z) : option (list Date) :=
  match while window_cond window_body window_fuel (mkGen [] today 0) with
  | None => None
  | Some st =>
      let dates := gen_dates st in
      let remainder :=
        JS.rem (JS.Fin (Z.of_nat (length dates))) (JS.Fin groupSize) in
      if JS.strict_neq remainder (JS.Fin 0) then
        let extraDaysNeeded := JS.sub (JS.Fin groupSize) remainder in
        match while (padding_cond extraDaysNeeded) padding_body
                (padding_fuel extraDaysNeeded) (mkGen dates (gen_date st) 0) with
        | None => None
        | Some st' => Some (gen_dates st')
        end
      else Some dates
  end.

(** ** groupDates *)

Record GroupState : Type := mkGroup {
  grp_grouped : list (list Date);   (* grouped *)
  grp_i : Z                         (* i *)
}.

(** [while (i < dates.length) { ... }] *)
Definition group_cond (dates : list Date) (st : GroupState) : bool :=
  grp_i st <? Z.of_nat (length dates).

Definition group_body (dates : list Date) (groupSize : Z) (st : GroupState)
  : GroupState :=
  let group := JS.slice dates (grp_i st) (grp_i st + groupSize) in
  mkGroup (grp_grouped st ++ [group]) (grp_i st + groupSize).

(** [groupDates(dates, groupSize)] run for at most [fuel] iterations. *)
Definition groupDates_run (fuel : nat) (dates : list Date) (groupSize : Z)
  : option (list (list Date)) :=
  option_map grp_grouped
    (while (group_cond dates) (group_body dates groupSize) fuel (mkGroup [] 0)).

(** [groupDates(dates, groupSize)], granted one iteration per element of
    [dates]: enough for every positive size ([group_loop] below), while no
    amount is enough for the other sizes on a non-empty list
    ([group_loop_diverges]). *)
Definition groupDates (dates : list Date) (groupSize : Z)
  : option (list (list Date)) :=
  groupDates_run (length dates) dates groupSize.

(** ** isUnavailable *)

(** The values [isUnavailable] returns: ['unavailable'], ['full'], [false]. *)
Inductive Status : Type :=
| status_unavailable
| status_full
| status_false.

Definition isUnavailable (date : Date) (slot : string) (isSpecialItem : bool)
  : Status :=
  let day := getDay date in
  let isFriday := day =? 5 in
  let isWednesday := day =? 3 in
  if isSpecialItem && isWednesday then status_unavailable
  else
    let isSecondFriday := Z.rem (JS.ceil_div (getDate date) 7) 2 =? 0 in
    if isFriday && isSecondFriday && String.eqb slot "AM" then status_full
    else status_false.

(** ** Dates as strings *)

(** The steps [getDate] goes through, named: the day within the era of 400
    years, the year within the era, the day within that year (which begins
    on 1 March) and the month counted from March. *)
Definition dayOfEra (date : Date) : Z :=
  let z := date + 719468 in z - (z / 146097) * 146097.

Definition yearOfEra (doe : Z) : Z :=
  (doe - doe / 1460 + doe / 36524 - doe / 146096) / 365.

Definition yearStart (yoe : Z) : Z := 365 * yoe + yoe / 4 - yoe / 100.

Definition dayOfYear (doe : Z) : Z := doe - yearStart (yearOfEra doe).

Definition monthIndex (doy : Z) : Z := (5 * doy + 2) / 153.

Definition dateOfYear (doy : Z) : Z :=
  doy - (153 * monthIndex doy + 2) / 5 + 1.

(** [date.getMonth()]: 0 is January. *)
Definition getMonth (date : Date) : Z :=
  let mp := monthIndex (dayOfYear (dayOfEra date)) in
  if mp <? 10 then mp + 2 else mp - 10.

(** [date.getFullYear()] *)
Definition getFullYear (date : Date) : Z :=
  let era := (date + 719468) / 146097 in
  let doe := dayOfEra date in
  let mp := monthIndex (dayOfYear doe) in
  yearOfEra doe + era * 400 + (if mp <? 10 then 0 else 1).

(** The decimal digits of a number that is not negative. *)
Definition digit_char (n : Z) : ascii :=
  match n with
  | 0 => "0" | 1 => "1" | 2 => "2" | 3 => "3" | 4 => "4"
  | 5 => "5" | 6 => "6" | 7 => "7" | 8 => "8" | _ => "9"
  end%char.

Fixpoint decimal_digits (fuel : nat) (n : Z) : string :=
  match fuel with
  | O => EmptyString
  | S fuel' =>
      if n <? 10 then String (digit_char n) EmptyString
      else String.append (decimal_digits fuel' (n / 10))
                         (String (digit_char (n mod 10)) EmptyString)
  end.

Definition decimal (n : Z) : string :=
  decimal_digits (S (Z.to_nat (Z.log2 n))) n.

Fixpoint repeat_char (c : ascii) (k : nat) : string :=
  match k with
  | O => EmptyString
  | S k' => String c (repeat_char c k')
  end.

(** [s.padStart(targetLength, c)] *)
Definition padStart (s : string) (targetLength : nat) (c : ascii) : string :=
  String.append (repeat_char c (targetLength - String.length s)) s.

(** A number in decimal, with zeros in front up to [minLength] digits. *)
Definition zero_padded (n : Z) (minLength : nat) : string :=
  padStart (decimal n) minLength "0"%char.

Definition weekday_name (day : Z) : string :=
  match day with
  | 0 => "Sun" | 1 => "Mon" | 2 => "Tue" | 3 => "Wed"
  | 4 => "Thu" | 5 => "Fri" | _ => "Sat"
  end%string.

Definition month_name (month : Z) : string :=
  match month with
  | 0 => "Jan" | 1 => "Feb" | 2 => "Mar" | 3 => "Apr"
  | 4 => "May" | 5 => "Jun" | 6 => "Jul" | 7 => "Aug"
  | 8 => "Sep" | 9 => "Oct" | 10 => "Nov" | _ => "Dec"
  end%string.

(** [date.toDateString()]: the names of the weekday and of the month, the
    day of the month on two digits and the year on at least four, after a
    minus sign when it is negative. *)
Definition toDateString (date : Date) : string :=
  (weekday_name (getDay date) ++ " "
   ++ month_name (getMonth date) ++ " "
   ++ zero_padded (getDate date) 2 ++ " "
   ++ (if (getFullYear date <? 0)%Z then "-" else "")
   ++ zero_padded (Z.abs (getFullYear date)) 4)%string.

(** ** The selection: handleSelect *)

(** The object [selectedSlots]: its own properties, in the order in which
    they were created. *)
Definition SelectedSlots : Type := list (string * bool).

(** [obj[key]]; [None] is [undefined]. *)
Fixpoint obj_get (obj : SelectedSlots) (key : string) : option bool :=
  match obj with
  | [] => None
  | (k, v) :: rest => if String.eqb k key then Some v else obj_get rest key
  end.

(** [{ ...obj, [key]: value }]: a property that exists keeps its place, a
    new one comes last. *)
Fixpoint obj_set (obj : SelectedSlots) (key : string) (value : bool)
  : SelectedSlots :=
  match obj with
  | [] => [(key, value)]
  | (k, v) :: rest =>
      if String.eqb k key then (k, value) :: rest
      else (k, v) :: obj_set rest key value
  end.

(** The truth value of a boolean or [undefined], as [!x] and [x ? a : b]
    take it. *)
Definition truthy (x : option bool) : bool :=
  match x with
  | Some true => true
  | _ => false
  end.

(** [`${date.toDateString()}-${slot}`] *)
Definition selectionKey (date : Date) (slot : string) : string :=
  (toDateString date ++ "-" ++ slot)%string.

(** [handleSelect(date, slot)], as the update it passes to
    [setSelectedSlots]. *)
Definition handleSelect (date : Date) (slot : string) (prev : SelectedSlots)
  : SelectedSlots :=
  let key := selectionKey date slot in
  obj_set prev key (negb (truthy (obj_get prev key))).

(** The [isSelected] property that [DateSlotPicker] passes to a [Slot]. *)
Definition isSelected (selectedSlots : SelectedSlots) (date : Date)
           (slot : string) : option bool :=
  obj_get selectedSlots (selectionKey date slot).

(** ** The Slot component *)

(** What a [Slot] renders: the class names, the cursor and the text. *)
Record SlotView : Type := mkSlotView {
  view_className : string;
  view_cursor : string;
  view_text : string
}.

Definition isUnavailableSlot (availabilityStatus : Status) : bool :=
  match availabilityStatus with status_unavailable => true | _ => false end.

Definition isFullSlot (availabilityStatus : Status) : bool :=
  match availabilityStatus with status_full => true | _ => false end.

(** [Slot({ date, slot, isSelected, isUnavailable, isSpecialItem })], with
    the [isUnavailable] that [DateSlotPicker] passes.  The unused
    [dateString] is left out. *)
Definition Slot (date : Date) (slot : string) (selected : option bool)
           (isSpecialItem : bool) : SlotView :=
  let availabilityStatus := isUnavailable date slot isSpecialItem in
  let unavailable := isUnavailableSlot availabilityStatus in
  let full := isFullSlot availabilityStatus in
  mkSlotView
    ("slot " ++ (if unavailable then "unavailable" else "")
     ++ " " ++ (if full then "full" else "")
     ++ " " ++ (if truthy selected then "selected" else ""))%string
    (if unavailable || full then "not-allowed" else "pointer")%string
    (slot ++ " "
     ++ (if full then "(Full)"
         else if unavailable then "(Unavailable)" else ""))%string.

(** The [onClick] of a [Slot]: [onSelect] is called only when the slot is
    neither unavailable nor full. *)
Definition Slot_onClick (date : Date) (slot : string) (isSpecialItem : bool)
           (onSelect : Date -> string -> SelectedSlots -> SelectedSlots)
           (selectedSlots : SelectedSlots) : SelectedSlots :=
  let availabilityStatus := isUnavailable date slot isSpecialItem in
  if negb (isUnavailableSlot availabilityStatus)
     && negb (isFullSlot availabilityStatus)
  then onSelect date slot selectedSlots
  else selectedSlots.

(** A click on the slot of a date in [DateSlotPicker], where [onSelect] is
    [handleSelect]. *)
Definition clickSlot (date : Date) (slot : string) (isSpecialItem : bool)
           (selectedSlots : SelectedSlots) : SelectedSlots :=
  Slot_onClick date slot isSpecialItem handleSelect selectedSlots.

(** * Notions used to state the properties *)

(** ** Results of [generateDates] *)

(** Strictly increasing lists of dates. *)
Definition increasing (l : list Date) : Prop := StronglySorted Z.lt l.

(** The number of dates the padding phase appends for a positive group
    size. *)
Definition extraNeeded (groupSize : Z) : Z :=
  if 28 mod groupSize =? 0 then 0 else groupSize - 28 mod groupSize.

(** [daysDifference] of the test suite: the whole days between [dates[0]]
    and [dates[dates.length - 1]]. *)
Definition daysDifference (dates : list Date) : option Z :=
  match nth_error dates 0, nth_error dates (length dates - 1) with
  | Some firstDate, Some lastDate => Some (lastDate - firstDate)
  | _, _ => None
  end.

(** ** Availability *)

(** The slots the widget shows and the strings it passes for them. *)
Inductive SlotLabel : Type := Morning | Afternoon | Evening.

Definition slot_code (slot : SlotLabel) : string :=
  match slot with
  | Morning => "AM"
  | Afternoon => "PM"
  | Evening => "EVE"
  end%string.

(** The three outcomes, as the [Slot] component reads the returned value. *)
Inductive AvailabilityResult : Type := Available | Unavailable | Full.

Definition availability (status : Status) : AvailabilityResult :=
  match status with
  | status_unavailable => Unavailable
  | status_full => Full
  | status_false => Available
  end.

Definition Wednesday : Z := 3.
Definition Friday : Z := 5.

(** The day of the month, divided by 7 and rounded up, is even. *)
Definition even_week_of_month (date : Date) : Prop :=
  exists q, 7 * (q - 1) < getDate date <= 7 * q /\ q mod 2 = 0.

(** The rules of the specification, each guarded by the failure of the ones
    before it. *)
Inductive availability_rule (date : Date) (slot : SlotLabel) (flag : bool)
  : AvailabilityResult -> Prop :=
| rule_special_wednesday :
    flag = true -> getDay date = Wednesday ->
    availability_rule date slot flag Unavailable
| rule_second_friday :
    ~ (flag = true /\ getDay date = Wednesday) ->
    getDay date = Friday -> even_week_of_month date -> slot = Morning ->
    availability_rule date slot flag Full
| rule_otherwise :
    ~ (flag = true /\ getDay date = Wednesday) ->
    ~ (getDay date = Friday /\ even_week_of_month date /\ slot = Morning) ->
    availability_rule date slot flag Available.

(** ** Loop invariants and variants *)

(** The window loop: [validDays] counts the collected dates, which are free
    of Sundays, increasing, and all before the cursor; once 28 are
    collected the last of them is the day before the cursor. *)
Record window_inv (st : GenState) : Prop := {
  wi_count : 0 <= gen_count st <= 28;
  wi_length : Z.of_nat (length (gen_dates st)) = gen_count st;
  wi_weekday : Forall (fun d => getDay d <> 0) (gen_dates st);
  wi_sorted : increasing (gen_dates st);
  wi_before : Forall (fun d => d < gen_date st) (gen_dates st);
  wi_last : gen_count st = 28 ->
            exists l, gen_dates st = l ++ [gen_date st - 1]
}.

Definition window_variant (st : GenState) : nat :=
  Z.to_nat (2 * (28 - gen_count st)
            + (if getDay (gen_date st) =? 0 then 1 else 0)).

(** The padding loop: the window is kept, and the dates appended so far are
    [i] in number, free of Sundays, increasing, after the day the cursor
    started on and not after the cursor. *)
Record padding_inv (window : list Date) (cursor0 extra : Z) (st : GenState)
  : Prop := {
  pi_count : 0 <= gen_count st <= extra;
  pi_cursor : cursor0 <= gen_date st;
  pi_split : exists padding,
      gen_dates st = window ++ padding /\
      Z.of_nat (length padding) = gen_count st /\
      Forall (fun d => cursor0 < d <= gen_date st /\ getDay d <> 0) padding /\
      increasing padding
}.

Definition padding_variant (extra : Z) (st : GenState) : nat :=
  Z.to_nat (2 * (extra - gen_count st)
            + (if getDay (addDays (gen_date st) 1) =? 0 then 1 else 0)).

(** Moving a state of [generateDates] by [k] weeks. *)
Definition shift_weeks (k : Z) (st : GenState) : GenState :=
  mkGen (map (fun d => d + 7 * k) (gen_dates st))
        (gen_date st + 7 * k) (gen_count st).

(** A group of exactly [groupSize] elements. *)
Definition full_group (groupSize : Z) (group : list Date) : Prop :=
  Z.of_nat (length group) = groupSize.

(** The loop of [groupDates] with a positive size: the groups pushed so far
    make up the first [i] elements; all are full while [i] is within the
    list, and all but the last in any case. *)

Record group_inv (dates : list Date) (groupSize : Z) (st : GroupState)
  : Prop := {
  gi_index : 0 <= grp_i st;
  gi_concat : concat (grp_grouped st) = firstn (Z.to_nat (grp_i st)) dates;
  gi_full : grp_i st <= Z.of_nat (length dates) ->
            Forall (full_group groupSize) (grp_grouped st);
  gi_shape : forall init lastGroup,
      grp_grouped st = init ++ [lastGroup] ->
      Forall (full_group groupSize) init /\
      1 <= Z.of_nat (length lastGroup) <= groupSize
}.

Definition group_variant (dates : list Date) (st : GroupState) : nat :=
  Z.to_nat (Z.of_nat (length dates) - grp_i st).

(** ** Notions for the contents of the results *)

(** The first date the window loop collects. *)
Definition firstDelivery (today : Date) : Date :=
  if getDay today =? 0 then addDays today 1 else today.

(** The window loop collects every day from [today] up to the cursor that
    is no Sunday, and nothing else. *)
Definition window_members (today : Date) (st : GenState) : Prop :=
  today <= gen_date st /\
  forall d, In d (gen_dates st) <->
            today <= d < gen_date st /\ getDay d <> 0.

(** The padding loop appends every day after the day it started on, up to
    the cursor, that is no Sunday; when the last wanted date has been
    appended, the cursor stands on it. *)
Record padding_members (window : list Date) (cursor0 extra : Z)
       (st : GenState) : Prop := {
  pm_cursor : cursor0 <= gen_date st;
  pm_split : exists padding,
      gen_dates st = window ++ padding /\
      forall d, In d padding <->
                cursor0 < d <= gen_date st /\ getDay d <> 0;
  pm_last : gen_count st = extra -> 0 < extra ->
            exists l, gen_dates st = l ++ [gen_date st]
}.

(** The [k]-th run of [size] consecutive elements of a list. *)
Definition chunk (dates : list Date) (size : Z) (k : nat) : list Date :=
  firstn (Z.to_nat size) (skipn (k * Z.to_nat size) dates).

(** The loop of [groupDates] with a positive size pushes the chunks in
    order; the index is the number of groups times the size, and the last
    group pushed began inside the list. *)
Record group_chunks (dates : list Date) (groupSize : Z) (st : GroupState)
  : Prop := {
  gc_index : grp_i st = Z.of_nat (length (grp_grouped st)) * groupSize;
  gc_chunks : grp_grouped st
              = map (chunk dates groupSize) (seq 0 (length (grp_grouped st)));
  gc_began : grp_grouped st <> [] ->
             grp_i st - groupSize < Z.of_nat (length dates)
}.

(** ** Notions for reading date strings back *)

(** The day number of a year, a month counted from January as 0, and a day
    of the month. *)
Definition days_from_civil (y m d : Z) : Z :=
  let y' := if m <=? 1 then y - 1 else y in
  let era := y' / 400 in
  let yoe := y' - era * 400 in
  let mp := if m <=? 1 then m + 10 else m - 2 in
  let doy := (153 * mp + 2) / 5 + d - 1 in
  era * 146097 + (yoe * 365 + yoe / 4 - yoe / 100 + doy) - 719468.

Definition char_code (c : ascii) : Z := Z.of_N (N_of_ascii c).

Definition is_digit (c : ascii) : bool :=
  (48 <=? char_code c) && (char_code c <=? 57).

Fixpoint all_digits (s : string) : bool :=
  match s with
  | EmptyString => true
  | String c s' => is_digit c && all_digits s'
  end.

(** The string is empty or begins with something else than a digit. *)
Definition no_digit_ahead (s : string) : bool :=
  match s with
  | EmptyString => true
  | String c _ => negb (is_digit c)
  end.

(** The number a string of digits writes, read after the digits that gave
    [acc]. *)
Fixpoint digits_value (s : string) (acc : Z) : Z :=
  match s with
  | EmptyString => acc
  | String c s' => digits_value s' (10 * acc + (char_code c - 48))
  end.

(** * Properties *)

(** ** Loops: fuel, invariants, variants *)

Section WhileFacts.
Context {S : Type}.
Variable cond : S -> bool.
Variable body : S -> S.

Lemma while_fuel_mono (n m : nat) (s s' : S) :
  while cond body n s = Some s' -> (n <= m)%nat ->
  while cond body m s = Some s'.
Proof.
  revert m s; induction n as [|n IH]; intros m s H Hle; simpl in *.
  - destruct m; simpl; destruct (cond s); congruence.
  - destruct m as [|m]; [lia|]. simpl.
    destruct (cond s); [apply IH; [assumption | lia] | assumption].
Qed.

Lemma while_exit (n : nat) (s s' : S) :
  while cond body n s = Some s' -> cond s' = false.
Proof.
  revert s; induction n as [|n IH]; intros s; simpl;
    destruct (cond s) eqn:E; try congruence; eauto.
Qed.

(** Total correctness: an invariant kept by the body and a variant that
    the body decreases give an exit state within [fuel] iterations. *)
Section Rule.
Variable Inv : S -> Prop.
Variable variant : S -> nat.
Hypothesis body_ok : forall s, Inv s -> cond s = true ->
  Inv (body s) /\ (variant (body s) < variant s)%nat.

Lemma while_rule (fuel : nat) (s : S) :
  Inv s -> (variant s <= fuel)%nat ->
  exists s', while cond body fuel s = Some s' /\ Inv s' /\ cond s' = false.
Proof.
  revert s; induction fuel as [|fuel IH]; intros s HI Hv; simpl;
    destruct (cond s) eqn:E; eauto.
  - destruct (body_ok s HI E); lia.
  - destruct (body_ok s HI E). apply IH; [assumption | lia].
Qed.
End Rule.

(** Divergence: a set of states closed under the body on which the guard
    holds is never left. *)
Section Stuck.
Variable Inv : S -> Prop.
Hypothesis stays : forall s, Inv s -> cond s = true /\ Inv (body s).

Lemma while_diverges (fuel : nat) (s : S) :
  Inv s -> while cond body fuel s = None.
Proof.
  revert s; induction fuel as [|fuel IH]; intros s HI; simpl;
    destruct (stays s HI) as [-> HI']; auto.
Qed.
End Stuck.
End WhileFacts.

(** ** Weekdays *)

(** Linear goals over [getDay]: divisions and remainders by constants are
    turned into their Euclidean equations first. *)
Ltac weekday :=
  unfold getDay, addDays in *; Z.to_euclidean_division_equations; lia.

Lemma getDay_range (d : Date) : 0 <= getDay d < 7.
Proof. unfold getDay. apply Z.mod_pos_bound. lia. Qed.

Lemma getDay_after_sunday (d : Date) : getDay d = 0 -> getDay (addDays d 1) = 1.
Proof. intros H. weekday. Qed.

Lemma getDay_shift (d k : Z) : getDay (d + 7 * k) = getDay d.
Proof.
  unfold getDay. replace (d + 7 * k + 4) with (d + 4 + k * 7) by lia.
  apply Z.mod_add. lia.
Qed.

(** The day of the month is between 1 and 31. *)
Lemma getDate_range (date : Date) : 1 <= getDate date <= 31.
Proof. unfold getDate. Z.to_euclidean_division_equations. lia. Qed.

(** Days used in the examples: Thursday 1970-01-01, Wednesday 1969-12-31,
    Thursday 2024-02-29 and Monday 2026-11-02. *)
Example calendar_samples :
  (getDay 0, getDate 0) = (4, 1) /\
  (getDay (-1), getDate (-1)) = (3, 31) /\
  (getDay 19782, getDate 19782) = (4, 29) /\
  (getDay 20759, getDate 20759) = (1, 2).
Proof. repeat split. Qed.

(** ** Increasing lists *)

Lemma increasing_app (l1 l2 : list Date) (x : Date) :
  increasing l1 -> Forall (fun d => d < x) l1 ->
  increasing l2 -> Forall (fun d => x <= d) l2 ->
  increasing (l1 ++ l2).
Proof.
  unfold increasing. intros H1 Hlt H2 Hge.
  induction H1 as [|a l1 Hs IH Ha]; simpl; [assumption|].
  inversion Hlt as [|? ? Hax Hl1]; subst.
  constructor; [auto|].
  apply Forall_app; split; [assumption|].
  eapply Forall_impl; [|exact Hge]. simpl; intros; lia.
Qed.

Lemma increasing_snoc (l : list Date) (x : Date) :
  increasing l -> Forall (fun d => d < x) l -> increasing (l ++ [x]).
Proof.
  intros Hl Hlt. apply increasing_app with (x := x); auto.
  - repeat constructor.
  - repeat constructor. lia.
Qed.

Lemma increasing_NoDup (l : list Date) : increasing l -> NoDup l.
Proof.
  induction 1 as [|a l Hs IH Ha]; constructor; [|assumption].
  intros Hin. rewrite Forall_forall in Ha. specialize (Ha a Hin). lia.
Qed.

(** ** The window loop of [generateDates] *)

Lemma window_body_ok (st : GenState) :
  window_inv st -> window_cond st = true ->
  window_inv (window_body st) /\
  (window_variant (window_body st) < window_variant st)%nat.
Proof.
  destruct st as [dates date count].
  intros [Hc Hlen Hwd Hs Hb _]; cbn [gen_dates gen_date gen_count] in *.
  unfold window_cond, window_body, window_variant;
    cbn [gen_dates gen_date gen_count].
  rewrite Z.ltb_lt. intros Hlt.
  assert (Hweak : Forall (fun d => d < addDays date 1) dates)
    by (eapply Forall_impl; [|exact Hb]; unfold addDays; cbv beta; intros; lia).
  destruct (getDay date =? 0) eqn:E;
    cbn [negb gen_dates gen_date gen_count].
  - apply Z.eqb_eq in E. split.
    + constructor; cbn [gen_dates gen_date gen_count]; auto; lia.
    + rewrite (getDay_after_sunday _ E).
      change (1 =? 0) with false; cbv iota. lia.
  - apply Z.eqb_neq in E. split.
    + constructor; cbn [gen_dates gen_date gen_count].
      * lia.
      * rewrite length_app; cbn [length]; lia.
      * apply Forall_app; split; [assumption | repeat constructor; assumption].
      * apply increasing_snoc; assumption.
      * apply Forall_app; split; [assumption|].
        repeat constructor. unfold addDays; lia.
      * intros _. exists dates. unfold addDays. do 2 f_equal. lia.
    + destruct (getDay (addDays date 1) =? 0); lia.
Qed.

(** The first loop always ends, with exactly 28 dates collected. *)
Lemma window_loop (today : Date) :
  exists window cursor,
    while window_cond window_body window_fuel (mkGen [] today 0)
      = Some (mkGen window cursor 28) /\
    window_inv (mkGen window cursor 28).
Proof.
  destruct (while_rule window_cond window_body window_inv window_variant
              window_body_ok window_fuel (mkGen [] today 0))
    as ([window cursor count] & Hrun & Hinv & Hexit).
  - constructor; cbn [gen_dates gen_date gen_count length];
      try constructor; lia.
  - unfold window_variant, window_fuel; cbn [gen_date gen_count].
    destruct (getDay today =? 0); lia.
  - unfold window_cond in Hexit; cbn [gen_count] in Hexit.
    apply Z.ltb_ge in Hexit.
    assert (count = 28) by (pose proof (wi_count _ Hinv) as Hc;
                            cbn [gen_count] in Hc; lia).
    subst count. eauto.
Qed.

(** ** The padding loop of [generateDates] *)

Lemma padding_body_ok (window : list Date) (cursor0 extra : Z) (st : GenState) :
  padding_inv window cursor0 extra st ->
  padding_cond (JS.Fin extra) st = true ->
  padding_inv window cursor0 extra (padding_body st) /\
  (padding_variant extra (padding_body st) < padding_variant extra st)%nat.
Proof.
  destruct st as [dates date i].
  intros [Hc Hcur (padding & Hsplit & Hlen & Hall & Hinc)];
    cbn [gen_dates gen_date gen_count] in *.
  unfold padding_cond, padding_body, padding_variant, JS.lt;
    cbn [gen_dates gen_date gen_count].
  rewrite Z.ltb_lt. intros Hlt.
  destruct (getDay (addDays date 1) =? 0) eqn:E;
    cbn [negb gen_dates gen_date gen_count].
  - apply Z.eqb_eq in E. split.
    + constructor; cbn [gen_dates gen_date gen_count].
      * lia.
      * unfold addDays; lia.
      * exists padding. repeat split; try assumption; try lia.
        eapply Forall_impl; [|exact Hall]. unfold addDays; cbv beta.
        intros d [? ?]. split; [lia | assumption].
    + rewrite (getDay_after_sunday _ E).
      change (1 =? 0) with false; cbv iota. lia.
  - apply Z.eqb_neq in E. split.
    + constructor; cbn [gen_dates gen_date gen_count].
      * lia.
      * unfold addDays; lia.
      * exists (padding ++ [addDays date 1]). repeat split.
        -- rewrite Hsplit. symmetry. apply app_assoc.
        -- rewrite length_app; cbn [length]; lia.
        -- apply Forall_app; split.
           ++ eapply Forall_impl; [|exact Hall]. unfold addDays; cbv beta.
              intros d [? ?]. split; [lia | assumption].
           ++ repeat constructor; unfold addDays in *; try lia; try assumption.
        -- apply increasing_snoc; [assumption|].
           eapply Forall_impl; [|exact Hall]. unfold addDays; cbv beta.
           intros d [? ?]. lia.
    + destruct (getDay (addDays (addDays date 1) 1) =? 0); lia.
Qed.

(** The second loop always ends, with exactly [extra] dates appended, all of
    them later than the day the cursor stood on when the loop began. *)
Lemma padding_loop (window : list Date) (cursor0 extra : Z) :
  0 <= extra ->
  exists padding cursor,
    while (padding_cond (JS.Fin extra)) padding_body
      (padding_fuel (JS.Fin extra)) (mkGen window cursor0 0)
      = Some (mkGen (window ++ padding) cursor extra) /\
    Z.of_nat (length padding) = extra /\
    Forall (fun d => cursor0 < d /\ getDay d <> 0) padding /\
    increasing padding.
Proof.
  intros Hextra.
  destruct (while_rule (padding_cond (JS.Fin extra)) padding_body
              (padding_inv window cursor0 extra) (padding_variant extra)
              (padding_body_ok window cursor0 extra)
              (padding_fuel (JS.Fin extra)) (mkGen window cursor0 0))
    as ([dates cursor i] & Hrun & Hinv & Hexit).
  - constructor; cbn [gen_dates gen_date gen_count]; try lia.
    exists []. rewrite app_nil_r. repeat split; try constructor.
  - unfold padding_variant, padding_fuel; cbn [gen_date gen_count].
    destruct (getDay (addDays cursor0 1) =? 0); lia.
  - unfold padding_cond, JS.lt in Hexit; cbn [gen_count] in Hexit.
    apply Z.ltb_ge in Hexit.
    destruct Hinv as [Hc _ (padding & Hsplit & Hlen & Hall & Hinc)];
      cbn [gen_dates gen_date gen_count] in *.
    assert (Hi : i = extra) by lia. rewrite Hsplit, Hi in Hrun.
    exists padding, cursor.
    split; [exact Hrun|]. split; [lia|]. split; [|assumption].
    eapply Forall_impl; [|exact Hall]. cbv beta. intros d [? ?].
    split; [lia | assumption].
Qed.

(** ** What [generateDates] returns *)

Lemma extraNeeded_nonneg (g : Z) : 0 < g -> 0 <= extraNeeded g.
Proof.
  intros Hg. unfold extraNeeded.
  pose proof (Z.mod_pos_bound 28 g Hg).
  destruct (28 mod g =? 0); lia.
Qed.

(** The result for a positive group size: the 28 dates of the window, whose
    last element is the day before the cursor, followed by the padding, all
    of whose elements come after the cursor. *)
Lemma generateDates_spec (today : Date) (groupSize : Z) :
  0 < groupSize ->
  exists window cursor padding,
    generateDates today groupSize = Some (window ++ padding) /\
    window_inv (mkGen window cursor 28) /\
    Z.of_nat (length padding) = extraNeeded groupSize /\
    Forall (fun d => cursor < d /\ getDay d <> 0) padding /\
    increasing padding.
Proof.
  intros Hg.
  destruct (window_loop today) as (window & cursor & Hrun & Hinv).
  pose proof (wi_length _ Hinv) as Hlen; cbn [gen_dates gen_count] in Hlen.
  unfold generateDates. rewrite Hrun. cbn [gen_dates gen_date].
  rewrite Hlen. unfold JS.rem.
  replace (groupSize =? 0) with false by (symmetry; apply Z.eqb_neq; lia).
  rewrite Z.rem_mod_nonneg by lia.
  unfold JS.strict_neq, JS.sub, extraNeeded.
  pose proof (Z.mod_pos_bound 28 groupSize Hg) as Hmod.
  destruct (28 mod groupSize =? 0) eqn:E; cbn [negb].
  - exists window, cursor, []. rewrite app_nil_r.
    split; [reflexivity|]. split; [assumption|]. split; [reflexivity|].
    split; constructor.
  - apply Z.eqb_neq in E.
    destruct (padding_loop window cursor (groupSize - 28 mod groupSize))
      as (padding & cursor' & Hrun' & Hlen' & Hall & Hinc); [lia|].
    rewrite Hrun'. cbn [gen_dates].
    exists window, cursor, padding.
    split; [reflexivity|]. split; [assumption|]. split; [assumption|].
    split; assumption.
Qed.

Lemma generateDates_length (today : Date) (groupSize : Z) :
  0 < groupSize ->
  exists dates,
    generateDates today groupSize = Some dates /\
    Z.of_nat (length dates) = 28 + extraNeeded groupSize.
Proof.
  intros Hg.
  destruct (generateDates_spec today groupSize Hg)
    as (window & cursor & padding & Hrun & Hinv & Hlen & _).
  pose proof (wi_length _ Hinv) as Hw; cbn [gen_dates gen_count] in Hw.
  exists (window ++ padding). split; [assumption|].
  rewrite length_app. lia.
Qed.

Lemma padded_length_multiple (g : Z) :
  0 < g -> (28 + (g - 28 mod g)) mod g = 0.
Proof.
  intros Hg.
  replace (28 + (g - 28 mod g)) with ((28 / g + 1) * g)
    by (pose proof (Z.div_mod 28 g); lia).
  apply Z.mod_mul. lia.
Qed.

(** C1. For a positive [groupSize], [generateDates] returns 28 dates when
    28 mod groupSize is 0, and 28 + (groupSize - 28 mod groupSize) dates
    otherwise, a multiple of groupSize; when groupSize exceeds 28 the
    length is groupSize itself. *)
Theorem generateDates_length_by_groupSize (today : Date) (groupSize : Z) :
  0 < groupSize ->
  exists dates,
    generateDates today groupSize = Some dates /\
    (28 mod groupSize = 0 -> Z.of_nat (length dates) = 28) /\
    (28 mod groupSize <> 0 ->
       Z.of_nat (length dates) = 28 + (groupSize - 28 mod groupSize) /\
       Z.of_nat (length dates) mod groupSize = 0) /\
    (28 < groupSize -> Z.of_nat (length dates) = groupSize).
Proof.
  intros Hg.
  destruct (generateDates_length today groupSize Hg) as (dates & Hrun & Hlen).
  exists dates. split; [assumption|].
  unfold extraNeeded in Hlen.
  repeat split.
  - intros E. rewrite E in Hlen.
    change (0 =? 0) with true in Hlen; cbv iota in Hlen. lia.
  - apply Z.eqb_neq in H. rewrite H in Hlen. assumption.
  - apply Z.eqb_neq in H. rewrite H in Hlen. rewrite Hlen.
    apply padded_length_multiple; assumption.
  - intros Hbig. rewrite (Z.mod_small 28 groupSize) in Hlen by lia.
    change (28 =? 0) with false in Hlen; cbv iota in Hlen. lia.
Qed.

Lemma generateDates_length_by_groupSize_witness :
  exists dates,
    generateDates 20759 5 = Some dates /\
    (28 mod 5 = 0 -> Z.of_nat (length dates) = 28) /\
    (28 mod 5 <> 0 ->
       Z.of_nat (length dates) = 28 + (5 - 28 mod 5) /\
       Z.of_nat (length dates) mod 5 = 0) /\
    (28 < 5 -> Z.of_nat (length dates) = 5).
Proof. apply (generateDates_length_by_groupSize 20759 5). lia. Defined.

(** The three sizes that the test suite checks, on any day. *)
Corollary generateDates_length_7_5_3 (today : Date) :
  option_map (@length Date) (generateDates today 7) = Some 28%nat /\
  option_map (@length Date) (generateDates today 5) = Some 30%nat /\
  option_map (@length Date) (generateDates today 3) = Some 30%nat.
Proof.
  destruct (generateDates_length today 7) as (d7 & -> & H7); [lia|].
  destruct (generateDates_length today 5) as (d5 & -> & H5); [lia|].
  destruct (generateDates_length today 3) as (d3 & -> & H3); [lia|].
  change (extraNeeded 7) with 0 in H7.
  change (extraNeeded 5) with 2 in H5.
  change (extraNeeded 3) with 2 in H3.
  cbn [option_map].
  repeat split; f_equal; lia.
Qed.

(** C5. For a positive [groupSize] and any starting day, no element of the
    result of [generateDates] is a Sunday, in the window or in the padding. *)
Theorem generateDates_no_sunday (today : Date) (groupSize : Z) :
  0 < groupSize ->
  exists dates,
    generateDates today groupSize = Some dates /\
    Forall (fun d => getDay d <> 0) dates.
Proof.
  intros Hg.
  destruct (generateDates_spec today groupSize Hg)
    as (window & cursor & padding & Hrun & Hinv & _ & Hall & _).
  exists (window ++ padding). split; [assumption|].
  apply Forall_app. split.
  - exact (wi_weekday _ Hinv).
  - eapply Forall_impl; [|exact Hall]. cbv beta. tauto.
Qed.

Lemma generateDates_no_sunday_witness :
  exists dates,
    generateDates 20759 3 = Some dates /\
    Forall (fun d => getDay d <> 0) dates.
Proof. apply (generateDates_no_sunday 20759 3). lia. Defined.

Lemma generateDates_increasing_aux (today : Date) (groupSize : Z) :
  0 < groupSize ->
  exists dates,
    generateDates today groupSize = Some dates /\ increasing dates.
Proof.
  intros Hg.
  destruct (generateDates_spec today groupSize Hg)
    as (window & cursor & padding & Hrun & Hinv & _ & Hall & Hinc).
  exists (window ++ padding). split; [assumption|].
  apply increasing_app with (x := cursor).
  - exact (wi_sorted _ Hinv).
  - exact (wi_before _ Hinv).
  - assumption.
  - eapply Forall_impl; [|exact Hall]. cbv beta. intros; lia.
Qed.

(** C6. For a positive [groupSize] and any starting day, the result of
    [generateDates] is strictly increasing, hence free of duplicates. *)
Theorem generateDates_strictly_increasing (today : Date) (groupSize : Z) :
  0 < groupSize ->
  exists dates,
    generateDates today groupSize = Some dates /\
    StronglySorted Z.lt dates /\ NoDup dates.
Proof.
  intros Hg.
  destruct (generateDates_increasing_aux today groupSize Hg)
    as (dates & Hrun & Hinc).
  exists dates. split; [assumption|]. split; [exact Hinc|].
  apply increasing_NoDup; assumption.
Qed.

Lemma generateDates_strictly_increasing_witness :
  exists dates,
    generateDates 20759 6 = Some dates /\
    StronglySorted Z.lt dates /\ NoDup dates.
Proof. apply (generateDates_strictly_increasing 20759 6). lia. Defined.

(** C9. When the padding phase runs (positive [groupSize] that does not
    divide 28), the day after the 28th collected date is not in the result,
    Sunday or not: every padded date is at least two days after the 28th. *)
Theorem generateDates_padding_gap (today : Date) (groupSize : Z) :
  0 < groupSize -> 28 mod groupSize <> 0 ->
  exists dates d28,
    generateDates today groupSize = Some dates /\
    nth_error dates 27 = Some d28 /\
    ~ In (addDays d28 1) dates /\
    skipn 28 dates <> [] /\
    Forall (fun d => addDays d28 2 <= d) (skipn 28 dates).
Proof.
  intros Hg Hrem.
  destruct (generateDates_spec today groupSize Hg)
    as (window & cursor & padding & Hrun & Hinv & Hlen & Hall & _).
  pose proof (wi_length _ Hinv) as Hw; cbn [gen_dates gen_count] in Hw.
  destruct (wi_last _ Hinv eq_refl) as (l & Hl); cbn [gen_dates gen_date] in Hl.
  pose proof (wi_before _ Hinv) as Hb; cbn [gen_dates gen_date] in Hb.
  assert (Hw' : length window = 28%nat) by lia.
  assert (Hskip : skipn 28 (window ++ padding) = padding).
  { rewrite <- Hw'. rewrite skipn_app, skipn_all, Nat.sub_diag. reflexivity. }
  exists (window ++ padding), (cursor - 1).
  split; [assumption|]. split; [|split; [|split]].
  - rewrite nth_error_app1 by lia. rewrite Hl.
    assert (length l = 27%nat)
      by (rewrite Hl, length_app in Hw'; cbn [length] in Hw'; lia).
    rewrite nth_error_app2 by lia.
    replace (27 - length l)%nat with 0%nat by lia. reflexivity.
  - unfold addDays. replace (cursor - 1 + 1) with cursor by lia.
    rewrite in_app_iff. rewrite Forall_forall in Hb, Hall.
    intros [Hin | Hin]; [specialize (Hb _ Hin) | specialize (Hall _ Hin)]; lia.
  - rewrite Hskip. intros ->. cbn [length] in Hlen.
    unfold extraNeeded in Hlen. apply Z.eqb_neq in Hrem. rewrite Hrem in Hlen.
    pose proof (Z.mod_pos_bound 28 groupSize Hg). lia.
  - rewrite Hskip. eapply Forall_impl; [|exact Hall].
    unfold addDays; cbv beta. intros; lia.
Qed.

Lemma generateDates_padding_gap_witness :
  exists dates d28,
    generateDates 20759 5 = Some dates /\
    nth_error dates 27 = Some d28 /\
    ~ In (addDays d28 1) dates /\
    skipn 28 dates <> [] /\
    Forall (fun d => addDays d28 2 <= d) (skipn 28 dates).
Proof.
  apply (generateDates_padding_gap 20759 5); [lia | vm_compute; discriminate].
Defined.

(** Starting on Monday 2026-11-02 with groups of five: the 28th date is
    Thursday 3 December (day 20790); Friday 4 December (day 20791) is left
    out although it is no Sunday, and the padding is Saturday 5 and
    Monday 7 December. *)
Example generateDates_gap_on_a_friday :
  generateDates 20759 5 =
    Some [20759; 20760; 20761; 20762; 20763; 20764;
          20766; 20767; 20768; 20769; 20770; 20771;
          20773; 20774; 20775; 20776; 20777; 20778;
          20780; 20781; 20782; 20783; 20784; 20785;
          20787; 20788; 20789; 20790;
          20792; 20794] /\
  getDay 20791 = 5.
Proof. split; vm_compute; reflexivity. Qed.

(** ** Weekly periodicity of [generateDates] *)

Section WhileCommute.
Context {S : Type}.
Variables (cond : S -> bool) (body : S -> S) (f : S -> S).
Hypothesis cond_f : forall s, cond (f s) = cond s.
Hypothesis body_f : forall s, body (f s) = f (body s).

Lemma while_commute (fuel : nat) (s : S) :
  while cond body fuel (f s) = option_map f (while cond body fuel s).
Proof.
  revert s; induction fuel as [|fuel IH]; intros s; simpl;
    rewrite cond_f; destruct (cond s); try reflexivity.
  rewrite body_f. apply IH.
Qed.
End WhileCommute.

Lemma window_body_shift (k : Z) (st : GenState) :
  window_body (shift_weeks k st) = shift_weeks k (window_body st).
Proof.
  destruct st as [dates date count].
  unfold window_body, shift_weeks; cbn [gen_dates gen_date gen_count].
  rewrite getDay_shift.
  destruct (getDay date =? 0); cbn [negb gen_dates gen_date gen_count];
    unfold addDays; rewrite ?map_app; cbn [map]; f_equal; lia.
Qed.

Lemma padding_body_shift (k : Z) (st : GenState) :
  padding_body (shift_weeks k st) = shift_weeks k (padding_body st).
Proof.
  destruct st as [dates date i].
  unfold padding_body, shift_weeks; cbn [gen_dates gen_date gen_count].
  replace (addDays (date + 7 * k) 1) with (addDays date 1 + 7 * k)
    by (unfold addDays; lia).
  rewrite getDay_shift.
  destruct (getDay (addDays date 1) =? 0);
    cbn [negb gen_dates gen_date gen_count];
    rewrite ?map_app; reflexivity.
Qed.

(** Starting [k] weeks later moves every returned date by [k] weeks. *)
Lemma generateDates_shift (today k groupSize : Z) :
  generateDates (today + 7 * k) groupSize =
  option_map (map (fun d => d + 7 * k)) (generateDates today groupSize).
Proof.
  unfold generateDates.
  change (mkGen [] (today + 7 * k) 0) with (shift_weeks k (mkGen [] today 0)).
  rewrite (while_commute window_cond window_body (shift_weeks k))
    by (reflexivity || apply window_body_shift).
  destruct (while window_cond window_body window_fuel (mkGen [] today 0))
    as [[window cursor count]|]; [|reflexivity].
  cbn [option_map shift_weeks gen_dates gen_date gen_count].
  rewrite length_map.
  destruct (JS.strict_neq _ _); [|reflexivity].
  set (extra := JS.sub _ _).
  change (mkGen (map (fun d => d + 7 * k) window) (cursor + 7 * k) 0)
    with (shift_weeks k (mkGen window cursor 0)).
  rewrite (while_commute (padding_cond extra) padding_body (shift_weeks k))
    by (reflexivity || apply padding_body_shift).
  destruct (while _ _ _ _) as [[dates cursor' i]|]; reflexivity.
Qed.

(** ** The span of the window *)

Lemma daysDifference_shift (c : Z) (dates : list Date) :
  daysDifference (map (fun d => d + c) dates) = daysDifference dates.
Proof.
  unfold daysDifference, Date in *. rewrite length_map, !nth_error_map.
  destruct (nth_error dates 0); cbn [option_map]; [|reflexivity].
  destruct (nth_error dates (length dates - 1)); cbn [option_map];
    [|reflexivity].
  f_equal. lia.
Qed.

(** One week of starting days, by evaluation. *)
Lemma generateDates_4_one_week (r : Z) :
  0 <= r < 7 ->
  exists dates diff,
    generateDates r 4 = Some dates /\
    daysDifference dates = Some diff /\ 31 <= diff <= 32.
Proof.
  intros Hr.
  assert (Hcases : r = 0 \/ r = 1 \/ r = 2 \/ r = 3 \/ r = 4 \/ r = 5 \/ r = 6)
    by lia.
  repeat (destruct Hcases as [-> | Hcases]); try subst r;
    (eexists; eexists; split; [vm_compute; reflexivity|];
     split; [vm_compute; reflexivity | lia]).
Qed.

(** With groups of four the window is not padded: its first and last dates
    are 31 or 32 days apart, whatever the starting day. *)
Lemma generateDates_4_span (today : Date) :
  exists dates diff,
    generateDates today 4 = Some dates /\
    daysDifference dates = Some diff /\ 31 <= diff <= 32.
Proof.
  pose proof (Z.div_mod today 7 ltac:(lia)) as Hdm.
  pose proof (Z.mod_pos_bound today 7 ltac:(lia)) as Hr.
  destruct (generateDates_4_one_week _ Hr) as (dates & diff & Hrun & Hd & Hb).
  exists (map (fun d => d + 7 * (today / 7)) dates), diff.
  split; [|split; [|assumption]].
  - replace today with (today mod 7 + 7 * (today / 7)) at 1 by lia.
    rewrite generateDates_shift, Hrun. reflexivity.
  - rewrite daysDifference_shift. assumption.
Qed.

(** C8. Whatever the starting day, the first and the last element of
    [generateDates(4)] are at least 27 and fewer than 35 days apart. *)
Theorem generateDates_4_days_difference (today : Date) :
  exists dates diff,
    generateDates today 4 = Some dates /\
    daysDifference dates = Some diff /\
    27 <= diff < 35.
Proof.
  destruct (generateDates_4_span today) as (dates & diff & Hrun & Hd & Hb).
  exists dates, diff. repeat split; try assumption; lia.
Qed.

(** ** Slices *)

Lemma firstn_plus_split {A : Type} (a b : nat) (l : list A) :
  firstn (a + b) l = firstn a l ++ firstn b (skipn a l).
Proof.
  revert l; induction a as [|a IH]; intros l; [reflexivity|].
  destruct l as [|x l]; cbn [Nat.add firstn skipn app].
  - rewrite firstn_nil. reflexivity.
  - rewrite IH. reflexivity.
Qed.

(** Inside the array and with a positive size, [slice(i, i + size)] is the
    next [size] elements, or what is left of the array. *)
Lemma slice_chunk {A : Type} (l : list A) (i size : Z) :
  0 <= i < Z.of_nat (length l) -> 0 < size ->
  JS.slice l i (i + size) = firstn (Z.to_nat size) (skipn (Z.to_nat i) l) /\
  Z.of_nat (length (JS.slice l i (i + size)))
    = Z.min size (Z.of_nat (length l) - i).
Proof.
  intros Hi Hsize. unfold JS.slice, JS.clamp_index.
  replace (i <? 0) with false by (symmetry; apply Z.ltb_ge; lia).
  replace (i + size <? 0) with false by (symmetry; apply Z.ltb_ge; lia).
  rewrite (Z.min_l i) by lia.
  assert (Hskip : length (skipn (Z.to_nat i) l)
                  = Z.to_nat (Z.of_nat (length l) - i))
    by (rewrite length_skipn; lia).
  destruct (Z.le_gt_cases (i + size) (Z.of_nat (length l))) as [Hle | Hgt].
  - rewrite Z.min_l by lia. replace (i + size - i) with size by lia.
    split; [reflexivity|].
    rewrite length_firstn, Hskip. lia.
  - rewrite Z.min_r by lia.
    rewrite !firstn_all2 by lia.
    split; [reflexivity|]. rewrite Hskip. lia.
Qed.

(** ** The loop of [groupDates] *)

Section GroupLoop.
Variable dates : list Date.
Variable groupSize : Z.

Let len : Z := Z.of_nat (length dates).

Hypothesis positive : 0 < groupSize.

Lemma group_body_ok (st : GroupState) :
  group_inv dates groupSize st -> group_cond dates st = true ->
  group_inv dates groupSize (group_body dates groupSize st) /\
  (group_variant dates (group_body dates groupSize st)
   < group_variant dates st)%nat.
Proof.
  destruct st as [grouped i].
  intros [Hi Hcat Hfull _]; cbn [grp_grouped grp_i] in *.
  unfold group_cond, group_body, group_variant; cbn [grp_grouped grp_i].
  rewrite Z.ltb_lt. fold len. intros Hlt.
  destruct (slice_chunk dates i groupSize) as [Hslice Hlen]; [lia..|].
  fold len in Hlen.
  split; [constructor; cbn [grp_grouped grp_i] | lia].
  - lia.
  - rewrite concat_app, Hcat, Hslice. cbn [concat]. rewrite app_nil_r.
    rewrite Z2Nat.inj_add by lia. symmetry. apply firstn_plus_split.
  - intros Hfit. apply Forall_app. split; [apply Hfull; lia|].
    repeat constructor. unfold full_group. lia.
  - intros init lastGroup Heq. apply app_inj_tail in Heq as [<- <-].
    split; [apply Hfull; lia | lia].
Qed.

(** With a positive size the loop ends within one iteration per element. *)
Lemma group_loop :
  exists groups,
    groupDates dates groupSize = Some groups /\
    concat groups = dates /\
    forall init lastGroup,
      groups = init ++ [lastGroup] ->
      Forall (full_group groupSize) init /\
      1 <= Z.of_nat (length lastGroup) <= groupSize.
Proof.
  destruct (while_rule (group_cond dates) (group_body dates groupSize)
              (group_inv dates groupSize) (group_variant dates)
              group_body_ok
              (length dates) (mkGroup [] 0))
    as ([grouped i] & Hrun & Hinv & Hexit).
  - constructor; cbn [grp_grouped grp_i]; try (reflexivity || lia).
    + intros _. constructor.
    + intros [|x init] lastGroup Heq; discriminate.
  - unfold group_variant; cbn [grp_i]. lia.
  - unfold group_cond in Hexit; cbn [grp_i] in Hexit.
    apply Z.ltb_ge in Hexit.
    destruct Hinv as [Hi Hcat _ Hshape]; cbn [grp_grouped grp_i] in *.
    exists grouped. unfold groupDates, groupDates_run. rewrite Hrun.
    split; [reflexivity|]. split; [|assumption].
    rewrite Hcat. apply firstn_all2. lia.
Qed.
End GroupLoop.

(** A result of [groupDates_run] does not depend on the fuel that was
    granted beyond what the loop used. *)
Lemma groupDates_run_stable (n m : nat) (dates : list Date) (groupSize : Z)
      (groups : list (list Date)) :
  groupDates_run n dates groupSize = Some groups -> (n <= m)%nat ->
  groupDates_run m dates groupSize = Some groups.
Proof.
  unfold groupDates_run. intros H Hle.
  destruct (while _ _ n _) as [st|] eqn:E; [|discriminate].
  rewrite (while_fuel_mono _ _ n m _ st E Hle). assumption.
Qed.

(** C4. For a positive [groupSize], the groups returned by [groupDates],
    concatenated in order, are the input list: nothing is dropped,
    duplicated or reordered. *)
Theorem groupDates_concat (dates : list Date) (groupSize : Z) :
  0 < groupSize ->
  exists groups,
    groupDates dates groupSize = Some groups /\ concat groups = dates.
Proof.
  intros Hg.
  destruct (group_loop dates groupSize Hg) as (groups & Hrun & Hcat & _).
  exists groups. split; assumption.
Qed.

Lemma groupDates_concat_witness :
  exists groups,
    groupDates [20759; 20760; 20761; 20762; 20763] 2 = Some groups /\
    concat groups = [20759; 20760; 20761; 20762; 20763].
Proof. apply (groupDates_concat [20759; 20760; 20761; 20762; 20763] 2). lia. Defined.

(** Grouping what [generateDates] returns, for the sizes the widget offers
    and on any day. *)
Corollary groupDates_generateDates_concat (today : Date) (n : Z) :
  3 <= n <= 7 ->
  exists dates groups,
    generateDates today n = Some dates /\
    groupDates dates n = Some groups /\
    concat groups = dates.
Proof.
  intros Hn.
  destruct (generateDates_length today n) as (dates & Hgen & _); [lia|].
  destruct (group_loop dates n) as (groups & Hrun & Hcat & _); [lia|].
  exists dates, groups. repeat split; assumption.
Qed.

(** C7. For a positive [groupSize], every group returned by [groupDates]
    but possibly the last has exactly [groupSize] elements, the last has
    between 1 and [groupSize], and no group is empty. *)
Theorem groupDates_group_sizes (dates : list Date) (groupSize : Z) :
  0 < groupSize ->
  exists groups,
    groupDates dates groupSize = Some groups /\
    (forall init lastGroup,
        groups = init ++ [lastGroup] ->
        Forall (fun group => Z.of_nat (length group) = groupSize) init /\
        1 <= Z.of_nat (length lastGroup) <= groupSize) /\
    Forall (fun group => length group <> 0%nat) groups.
Proof.
  intros Hg.
  destruct (group_loop dates groupSize Hg) as (groups & Hrun & _ & Hshape).
  exists groups. split; [assumption|]. split; [assumption|].
  destruct groups as [|g0 groups]; [constructor|].
  destruct (@exists_last _ (g0 :: groups)) as (init & lastGroup & Heq);
    [discriminate|].
  rewrite Heq. destruct (Hshape _ _ Heq) as [Hfull Hlast].
  apply Forall_app. split.
  - eapply Forall_impl; [|exact Hfull]. unfold full_group. intros; lia.
  - repeat constructor. lia.
Qed.

Lemma groupDates_group_sizes_witness :
  exists groups,
    groupDates [20759; 20760; 20761; 20762; 20763] 2 = Some groups /\
    (forall init lastGroup,
        groups = init ++ [lastGroup] ->
        Forall (fun group => Z.of_nat (length group) = 2) init /\
        1 <= Z.of_nat (length lastGroup) <= 2) /\
    Forall (fun group => length group <> 0%nat) groups.
Proof.
  apply (groupDates_group_sizes [20759; 20760; 20761; 20762; 20763] 2). lia.
Defined.

Example groupDates_five_by_two :
  groupDates [20759; 20760; 20761; 20762; 20763] 2
  = Some [[20759; 20760]; [20761; 20762]; [20763]].
Proof. reflexivity. Qed.

(** ** [groupDates] with a size that is not positive *)

Section GroupStuck.
Variable dates : list Date.
Variable groupSize : Z.

Lemma group_iterate_index (n : nat) (st : GroupState) :
  grp_i (iterate (group_body dates groupSize) n st)
  = grp_i st + Z.of_nat n * groupSize.
Proof.
  revert st; induction n as [|n IH]; intros st; cbn [iterate].
  - lia.
  - rewrite IH. unfold group_body; cbn [grp_i]. lia.
Qed.

Hypothesis nonpositive : groupSize <= 0.
Hypothesis nonempty : dates <> [].

Lemma group_stays (st : GroupState) :
  grp_i st <= 0 ->
  group_cond dates st = true /\ grp_i (group_body dates groupSize st) <= 0.
Proof.
  intros Hi. unfold group_cond, group_body; cbn [grp_i].
  split; [|lia]. apply Z.ltb_lt.
  destruct dates; [congruence | cbn [length]; lia].
Qed.

Lemma group_loop_diverges (fuel : nat) :
  groupDates_run fuel dates groupSize = None.
Proof.
  unfold groupDates_run.
  rewrite (while_diverges (group_cond dates) (group_body dates groupSize)
             (fun st => grp_i st <= 0) group_stays);
    [reflexivity | cbn [grp_i]; lia].
Qed.
End GroupStuck.

Lemma group_iterate_zero (dates : list Date) (n : nat) (grouped : list (list Date)) :
  grp_grouped (iterate (group_body dates 0) n (mkGroup grouped 0))
  = grouped ++ repeat [] n.
Proof.
  revert grouped; induction n as [|n IH]; intros grouped; cbn [iterate repeat].
  - rewrite app_nil_r. reflexivity.
  - unfold group_body at 2; cbn [grp_grouped grp_i].
    change (0 + 0) with 0. rewrite IH, <- app_assoc.
    replace (JS.slice dates 0 0) with (@nil Date); [reflexivity|].
    unfold JS.slice, JS.clamp_index. change (0 <? 0) with false. cbv iota.
    rewrite Z.sub_diag. reflexivity.
Qed.

(** C10. [groupDates] terminates on every list when [groupSize] is
    positive.  On a non-empty list with [groupSize <= 0] the loop never
    ends: after any number of iterations the index is still below the
    length of the list; with [groupSize = 0] every iteration pushes an
    empty group. *)
Theorem groupDates_termination (dates : list Date) (groupSize : Z) :
  (0 < groupSize -> exists groups, groupDates dates groupSize = Some groups) /\
  (groupSize <= 0 -> dates <> [] ->
     (forall fuel, groupDates_run fuel dates groupSize = None) /\
     (forall n, grp_i (iterate (group_body dates groupSize) n (mkGroup [] 0))
                < Z.of_nat (length dates))) /\
  (groupSize = 0 ->
     forall n, grp_grouped (iterate (group_body dates groupSize) n (mkGroup [] 0))
               = repeat [] n).
Proof.
  split; [|split].
  - intros Hg.
    destruct (group_loop dates groupSize Hg) as (groups & Hrun & _).
    exists groups; assumption.
  - intros Hg Hne. split.
    + intros fuel. apply group_loop_diverges; assumption.
    + intros n. rewrite group_iterate_index. cbn [grp_i].
      destruct dates; [congruence | cbn [length]; nia].
  - intros -> n. apply group_iterate_zero.
Qed.

Lemma groupDates_termination_witness :
  (exists groups, groupDates [20759; 20760; 20761] 2 = Some groups) /\
  (forall fuel, groupDates_run fuel [20759; 20760; 20761] (-2) = None) /\
  (forall n, grp_grouped (iterate (group_body [20759] 0) n (mkGroup [] 0))
             = repeat [] n).
Proof.
  split; [|split].
  - apply (groupDates_termination [20759; 20760; 20761] 2). lia.
  - apply (groupDates_termination [20759; 20760; 20761] (-2));
      [lia | discriminate].
  - apply (groupDates_termination [20759] 0). reflexivity.
Defined.

(** ** [generateDates] with a size that is not positive *)

Lemma while_skip {S : Type} (cond : S -> bool) (body : S -> S)
      (fuel : nat) (s : S) :
  cond s = false -> while cond body fuel s = Some s.
Proof. intros H. destruct fuel; simpl; rewrite H; reflexivity. Qed.

(** With [groupSize <= 0] the padding loop is never entered: the remainder
    is [NaN] or the number of extra days is negative. *)
Lemma generateDates_nonpositive (today : Date) (groupSize : Z) :
  groupSize <= 0 ->
  exists window cursor,
    while window_cond window_body window_fuel (mkGen [] today 0)
      = Some (mkGen window cursor 28) /\
    length window = 28%nat /\
    generateDates today groupSize = Some window /\
    generateDates today 1 = Some window.
Proof.
  intros Hg.
  destruct (window_loop today) as (window & cursor & Hrun & Hinv).
  pose proof (wi_length _ Hinv) as Hlen; cbn [gen_dates gen_count] in Hlen.
  exists window, cursor. split; [assumption|]. split; [lia|].
  unfold generateDates. rewrite Hrun. cbn [gen_dates gen_date].
  rewrite Hlen. split; [|reflexivity].
  unfold JS.rem. destruct (groupSize =? 0) eqn:E0.
  - cbn [JS.strict_neq JS.sub]. rewrite while_skip; reflexivity.
  - apply Z.eqb_neq in E0.
    pose proof (Z.rem_nonneg 28 groupSize E0 ltac:(lia)) as Hrem.
    unfold JS.strict_neq, JS.sub.
    destruct (Z.rem 28 groupSize =? 0); cbn [negb]; [reflexivity|].
    rewrite while_skip; [reflexivity|].
    unfold padding_cond, JS.lt; cbn [gen_count]. apply Z.ltb_ge. lia.
Qed.

(** [generateDates] returns for every integer size and every starting day:
    the fuel granted to its loops never runs out. *)
Lemma generateDates_total (today : Date) (groupSize : Z) :
  exists dates, generateDates today groupSize = Some dates.
Proof.
  destruct (Z.lt_ge_cases 0 groupSize) as [Hpos | Hneg].
  - destruct (generateDates_length today groupSize Hpos) as (dates & H & _).
    exists dates; assumption.
  - destruct (generateDates_nonpositive today groupSize Hneg)
      as (window & _ & _ & _ & H & _).
    exists window; assumption.
Qed.

(** C3, as the code has it.  Neither function checks its argument.  For an
    integer [groupSize <= 0], [generateDates] returns the 28 dates of the
    unpadded window, the same as for size 1, and [groupDates] returns no
    group for the empty list. *)
Theorem nonpositive_groupSize_returns (today : Date) (groupSize : Z) :
  groupSize <= 0 ->
  (exists dates,
      generateDates today groupSize = Some dates /\
      length dates = 28%nat /\
      generateDates today 1 = Some dates) /\
  groupDates [] groupSize = Some [].
Proof.
  intros Hg.
  destruct (generateDates_nonpositive today groupSize Hg)
    as (window & _ & _ & Hlen & Hrun & Hone).
  split; [|reflexivity].
  exists window. repeat split; assumption.
Qed.

Lemma nonpositive_groupSize_returns_witness :
  (exists dates,
      generateDates 20759 (-5) = Some dates /\
      length dates = 28%nat /\
      generateDates 20759 1 = Some dates) /\
  groupDates [] (-5) = Some [].
Proof. apply (nonpositive_groupSize_returns 20759 (-5)). lia. Defined.

(** C3, as the claim has it, fails: called with 0 on Monday 2026-11-02,
    [generateDates] returns 28 dates, and [groupDates] returns the empty
    list of groups for the empty list. *)
Lemma zero_groupSize_returns :
  generateDates 20759 0 =
    Some [20759; 20760; 20761; 20762; 20763; 20764;
          20766; 20767; 20768; 20769; 20770; 20771;
          20773; 20774; 20775; 20776; 20777; 20778;
          20780; 20781; 20782; 20783; 20784; 20785;
          20787; 20788; 20789; 20790] /\
  groupDates [] 0 = Some [].
Proof. split; vm_compute; reflexivity. Qed.

(** ** The availability rules *)

(** [Math.ceil(n / d)] is the least integer [q] with [n <= d * q]. *)
Lemma ceil_div_spec (n d : Z) :
  0 < d -> d * (JS.ceil_div n d - 1) < n <= d * JS.ceil_div n d.
Proof.
  intros Hd. unfold JS.ceil_div.
  pose proof (Z.div_mod (- n) d ltac:(lia)).
  pose proof (Z.mod_pos_bound (- n) d Hd). nia.
Qed.

Lemma even_week_of_month_iff (date : Date) :
  even_week_of_month date <-> Z.rem (JS.ceil_div (getDate date) 7) 2 = 0.
Proof.
  pose proof (ceil_div_spec (getDate date) 7 ltac:(lia)) as Hc.
  rewrite Z.rem_mod_eq_0 by lia.
  split.
  - intros (q & Hq & Heven).
    replace (JS.ceil_div (getDate date) 7) with q by lia. assumption.
  - intros Heven. exists (JS.ceil_div (getDate date) 7). split; assumption.
Qed.

(** The even groups of seven days are the 8th to the 14th and the 22nd to
    the 28th. *)
Lemma even_week_of_month_days (date : Date) :
  even_week_of_month date <->
  8 <= getDate date <= 14 \/ 22 <= getDate date <= 28.
Proof.
  pose proof (getDate_range date) as Hr. unfold even_week_of_month. split.
  - intros (q & Hq & Heven).
    assert (q = 2 \/ q = 4)
      by (Z.to_euclidean_division_equations; lia).
    lia.
  - intros [H | H]; [exists 2 | exists 4]; (split; [lia | reflexivity]).
Qed.

Lemma slot_code_AM (slot : SlotLabel) :
  String.eqb (slot_code slot) "AM" = true <-> slot = Morning.
Proof. destruct slot; cbn; split; congruence. Qed.

(** C2. [isUnavailable] applies the rules in order: Unavailable for every
    slot of a Wednesday when the flag is set; otherwise Full for the
    Morning slot of a Friday whose day of the month, divided by 7 and
    rounded up, is even; otherwise Available. *)
Theorem isUnavailable_rules (date : Date) (slot : SlotLabel) (flag : bool) :
  availability_rule date slot flag
    (availability (isUnavailable date (slot_code slot) flag)).
Proof.
  unfold isUnavailable.
  destruct (flag && (getDay date =? 3)) eqn:E1.
  - apply andb_prop in E1 as [-> E1]. apply Z.eqb_eq in E1.
    apply rule_special_wednesday; [reflexivity | exact E1].
  - assert (H1 : ~ (flag = true /\ getDay date = Wednesday)).
    { intros [-> Hw]. unfold Wednesday in Hw. rewrite Hw in E1. discriminate. }
    destruct ((getDay date =? 5)
              && (Z.rem (JS.ceil_div (getDate date) 7) 2 =? 0)
              && String.eqb (slot_code slot) "AM") eqn:E2.
    + apply andb_prop in E2 as [E2 E3]. apply andb_prop in E2 as [E2 E4].
      apply Z.eqb_eq in E2, E4.
      apply rule_second_friday; try assumption.
      * apply even_week_of_month_iff; assumption.
      * apply slot_code_AM; assumption.
    + apply rule_otherwise; [assumption|].
      intros (Hf & He & Hs). unfold Friday in Hf.
      apply even_week_of_month_iff in He. apply slot_code_AM in Hs.
      rewrite Hf, He, Hs in E2. discriminate.
Qed.

(** The rules leave no choice: a date, a slot and a flag have one result. *)
Lemma availability_rule_functional (date : Date) (slot : SlotLabel)
      (flag : bool) (r1 r2 : AvailabilityResult) :
  availability_rule date slot flag r1 ->
  availability_rule date slot flag r2 -> r1 = r2.
Proof. intros H1 H2; inversion H1; inversion H2; subst; tauto. Qed.

(** Friday 13 November 2026 is in the second group of seven days of its
    month; Friday 6 November is in the first. *)
Example isUnavailable_fridays :
  isUnavailable 20770 "AM" false = status_full /\
  isUnavailable 20770 "PM" false = status_false /\
  isUnavailable 20770 "EVE" false = status_false /\
  isUnavailable 20763 "AM" false = status_false /\
  isUnavailable 20761 "PM" true = status_unavailable /\
  isUnavailable 20761 "PM" false = status_false.
Proof. repeat split; vm_compute; reflexivity. Qed.

(** * Further properties *)

(** ** Invariants along a run *)

Section WhileInvariant.
Context {S : Type}.
Variable cond : S -> bool.
Variable body : S -> S.
Variable Inv : S -> Prop.
Hypothesis body_keeps : forall s, Inv s -> cond s = true -> Inv (body s).

Lemma while_invariant (fuel : nat) (s s' : S) :
  Inv s -> while cond body fuel s = Some s' -> Inv s'.
Proof.
  revert s; induction fuel as [|fuel IH]; intros s HI; simpl;
    destruct (cond s) eqn:E; try congruence.
  apply IH. apply body_keeps; assumption.
Qed.
End WhileInvariant.

(** ** The two phases of [generateDates] *)

(** For a positive size, the result is that of the window loop, followed
    when the size does not divide 28 by what the padding loop appends. *)
Lemma generateDates_phases (today : Date) (groupSize : Z) :
  0 < groupSize ->
  exists window cursor,
    while window_cond window_body window_fuel (mkGen [] today 0)
      = Some (mkGen window cursor 28) /\
    window_inv (mkGen window cursor 28) /\
    ((28 mod groupSize = 0 /\ generateDates today groupSize = Some window) \/
     (28 mod groupSize <> 0 /\
      exists padding cursor',
        while (padding_cond (JS.Fin (groupSize - 28 mod groupSize)))
          padding_body (padding_fuel (JS.Fin (groupSize - 28 mod groupSize)))
          (mkGen window cursor 0)
          = Some (mkGen (window ++ padding) cursor'
                        (groupSize - 28 mod groupSize)) /\
        Z.of_nat (length padding) = groupSize - 28 mod groupSize /\
        generateDates today groupSize = Some (window ++ padding))).
Proof.
  intros Hg.
  destruct (window_loop today) as (window & cursor & Hrun & Hinv).
  pose proof (wi_length _ Hinv) as Hlen; cbn [gen_dates gen_count] in Hlen.
  exists window, cursor. split; [assumption|]. split; [assumption|].
  unfold generateDates. rewrite Hrun. cbn [gen_dates gen_date].
  rewrite Hlen. unfold JS.rem.
  replace (groupSize =? 0) with false by (symmetry; apply Z.eqb_neq; lia).
  rewrite Z.rem_mod_nonneg by lia.
  unfold JS.strict_neq, JS.sub.
  pose proof (Z.mod_pos_bound 28 groupSize Hg) as Hmod.
  destruct (28 mod groupSize =? 0) eqn:E; cbn [negb].
  - left. apply Z.eqb_eq in E. split; [assumption | reflexivity].
  - right. apply Z.eqb_neq in E. split; [assumption|].
    destruct (padding_loop window cursor (groupSize - 28 mod groupSize))
      as (padding & cursor' & Hrun' & Hlen' & _); [lia|].
    exists padding, cursor'. rewrite Hrun'. cbn [gen_dates].
    split; [reflexivity|]. split; [assumption | reflexivity].
Qed.

Lemma window_body_members (today : Date) (st : GenState) :
  window_members today st -> window_cond st = true ->
  window_members today (window_body st).
Proof.
  destruct st as [dates date count]. unfold window_members, window_body.
  cbn [gen_dates gen_date gen_count]. intros [Hle Hmem] _.
  destruct (getDay date =? 0) eqn:E; cbn [negb gen_dates gen_date gen_count];
    (split; [unfold addDays; lia|]); intros d; unfold addDays.
  - apply Z.eqb_eq in E. rewrite Hmem. split; intros [Hr Hd]; split; try lia;
      try assumption.
    destruct (Z.eq_dec d date) as [-> | Hne]; [contradiction | lia].
  - apply Z.eqb_neq in E. rewrite in_app_iff, Hmem. cbn [In]. split.
    + intros [[Hr Hd] | [<- | []]]; split; try lia; assumption.
    + intros [Hr Hd]. destruct (Z.eq_dec d date) as [-> | Hne];
        [right; left; reflexivity | left; split; [lia | assumption]].
Qed.

Lemma padding_body_members (window : list Date) (cursor0 extra : Z)
      (st : GenState) :
  padding_members window cursor0 extra st ->
  padding_cond (JS.Fin extra) st = true ->
  padding_members window cursor0 extra (padding_body st).
Proof.
  destruct st as [dates date i].
  intros [Hcur (padding & Hsplit & Hmem) _];
    cbn [gen_dates gen_date gen_count] in *.
  unfold padding_cond, padding_body, JS.lt; cbn [gen_dates gen_date gen_count].
  rewrite Z.ltb_lt. intros Hlt.
  destruct (getDay (addDays date 1) =? 0) eqn:E;
    cbn [negb gen_dates gen_date gen_count].
  - apply Z.eqb_eq in E.
    constructor; cbn [gen_dates gen_date gen_count].
    + unfold addDays; lia.
    + exists padding. split; [assumption|]. intros d. rewrite Hmem.
      unfold addDays in *. split; intros [Hr Hd]; split; try lia;
        try assumption.
      destruct (Z.eq_dec d (date + 1)) as [-> | Hne]; [contradiction | lia].
    + intros Heq; lia.
  - apply Z.eqb_neq in E.
    constructor; cbn [gen_dates gen_date gen_count].
    + unfold addDays; lia.
    + exists (padding ++ [addDays date 1]).
      split; [rewrite Hsplit; symmetry; apply app_assoc|].
      intros d. rewrite in_app_iff, Hmem. cbn [In]. unfold addDays in *. split.
      * intros [[Hr Hd] | [<- | []]]; split; try lia; assumption.
      * intros [Hr Hd]. destruct (Z.eq_dec d (date + 1)) as [-> | Hne];
          [right; left; reflexivity | left; split; [lia | assumption]].
    + intros _ _. exists dates. reflexivity.
Qed.

(** The 28th element of the result is the day before the cursor of the
    window loop. *)
Lemma window_28th (window padding : list Date) (cursor : Date) :
  window_inv (mkGen window cursor 28) ->
  nth_error (window ++ padding) 27 = Some (cursor - 1).
Proof.
  intros Hinv.
  pose proof (wi_length _ Hinv) as Hw; cbn [gen_dates gen_count] in Hw.
  destruct (wi_last _ Hinv eq_refl) as (l & Hl); cbn [gen_dates gen_date] in Hl.
  assert (Hll : length l = 27%nat)
    by (rewrite Hl, length_app in Hw; cbn [length] in Hw; lia).
  rewrite nth_error_app1 by lia. rewrite Hl.
  rewrite nth_error_app2 by lia.
  replace (27 - length l)%nat with 0%nat by lia. reflexivity.
Qed.

Lemma window_run_members (today : Date) (window : list Date) (cursor : Date) :
  while window_cond window_body window_fuel (mkGen [] today 0)
    = Some (mkGen window cursor 28) ->
  window_members today (mkGen window cursor 28).
Proof.
  apply (while_invariant window_cond window_body (window_members today)
           (window_body_members today)).
  split; cbn [gen_dates gen_date]; [lia|].
  intros d. cbn [In]. split; [tauto | lia].
Qed.

(** X1. The result of [generateDates] for a positive size holds exactly the
    days from [today] to its last element that are no Sundays, but for the
    day after the 28th element. *)
Theorem generateDates_members (today : Date) (groupSize : Z) :
  0 < groupSize ->
  exists dates d28 dlast,
    generateDates today groupSize = Some dates /\
    nth_error dates 27 = Some d28 /\
    (exists l, dates = l ++ [dlast]) /\
    forall d, In d dates <->
              getDay d <> 0 /\ today <= d <= dlast /\ d <> addDays d28 1.
Proof.
  intros Hg.
  destruct (generateDates_phases today groupSize Hg)
    as (window & cursor & Hrun & Hinv & Hcases).
  destruct (window_run_members _ _ _ Hrun) as [Hle Hmem];
    cbn [gen_dates gen_date] in Hle, Hmem.
  destruct (wi_last _ Hinv eq_refl) as (l & Hl); cbn [gen_dates gen_date] in Hl.
  destruct Hcases as [[_ Hgen] | (Hrem & padding & cursor' & Hrun' & Hlen & Hgen)].
  - exists window, (cursor - 1), (cursor - 1).
    split; [assumption|].
    split; [rewrite <- (app_nil_r window) at 1; apply window_28th; assumption|].
    split; [exists l; assumption|].
    intros d. rewrite Hmem. unfold addDays. split; intros H; repeat split;
      try tauto; lia.
  - pose proof (Z.mod_pos_bound 28 groupSize Hg) as Hmod.
    set (extra := groupSize - 28 mod groupSize) in *.
    assert (Hpm : padding_members window cursor extra
                    (mkGen (window ++ padding) cursor' extra)).
    { revert Hrun'.
      apply (while_invariant (padding_cond (JS.Fin extra)) padding_body
               (padding_members window cursor extra)
               (padding_body_members window cursor extra)).
      constructor; cbn [gen_dates gen_date gen_count]; [lia | | lia].
      exists []. rewrite app_nil_r. split; [reflexivity|].
      intros d. cbn [In]. split; [tauto | lia]. }
    destruct Hpm as [Hcur (padding' & Hsplit & Hmem') Hlast];
      cbn [gen_dates gen_date gen_count] in *.
    apply app_inv_head in Hsplit. subst padding'.
    destruct (Hlast eq_refl ltac:(lia)) as (l' & Hl').
    exists (window ++ padding), (cursor - 1), cursor'.
    split; [assumption|].
    split; [apply window_28th; assumption|].
    split; [exists l'; assumption|].
    intros d. rewrite in_app_iff, Hmem, Hmem'. unfold addDays.
    split.
    + intros [[Hr Hs] | [Hr Hs]]; repeat split; try assumption; lia.
    + intros (Hs & Hr & Hne).
      destruct (Z.lt_ge_cases d cursor); [left | right];
        (split; [lia | assumption]).
Qed.

Lemma generateDates_members_witness :
  exists dates d28 dlast,
    generateDates 20759 5 = Some dates /\
    nth_error dates 27 = Some d28 /\
    (exists l, dates = l ++ [dlast]) /\
    forall d, In d dates <->
              getDay d <> 0 /\ 20759 <= d <= dlast /\ d <> addDays d28 1.
Proof. apply (generateDates_members 20759 5). lia. Defined.

Lemma firstDelivery_spec (today : Date) :
  today <= firstDelivery today /\ getDay (firstDelivery today) <> 0 /\
  forall d, today <= d -> getDay d <> 0 -> firstDelivery today <= d.
Proof.
  unfold firstDelivery. destruct (getDay today =? 0) eqn:E.
  - apply Z.eqb_eq in E. rewrite (getDay_after_sunday _ E).
    unfold addDays. repeat split; try lia.
    intros d Hd Hs. destruct (Z.eq_dec d today) as [-> | Hne];
      [contradiction | lia].
  - apply Z.eqb_neq in E. repeat split; try lia; assumption.
Qed.

Lemma window_first (today : Date) (window : list Date) (cursor : Date) :
  window_members today (mkGen window cursor 28) ->
  window_inv (mkGen window cursor 28) ->
  nth_error window 0 = Some (firstDelivery today).
Proof.
  intros [_ Hmem] Hinv; cbn [gen_dates gen_date] in Hmem.
  pose proof (wi_length _ Hinv) as Hw; cbn [gen_dates gen_count] in Hw.
  pose proof (wi_sorted _ Hinv) as Hs; cbn [gen_dates] in Hs.
  destruct window as [|x rest]; [cbn [length] in Hw; lia|].
  cbn [nth_error]. f_equal.
  destruct (firstDelivery_spec today) as (Hf1 & Hf2 & Hf3).
  assert (Hx : In x (x :: rest)) by (left; reflexivity).
  apply Hmem in Hx. destruct Hx as [Hxr Hxs].
  pose proof (Hf3 x ltac:(lia) Hxs) as Hfx.
  assert (Hin : In (firstDelivery today) (x :: rest))
    by (apply Hmem; split; [lia | assumption]).
  destruct Hin as [Heq | Hin]; [assumption|].
  apply StronglySorted_inv in Hs as [_ Hall].
  rewrite Forall_forall in Hall. specialize (Hall _ Hin). lia.
Qed.

(** X2. Whatever the size, the first 28 dates are those of the unpadded window
    (the result for size 1), and the first of them is [today], or the day
    after when [today] is a Sunday. *)
Theorem generateDates_window_prefix (today : Date) (groupSize : Z) :
  exists window dates,
    generateDates today 1 = Some window /\
    generateDates today groupSize = Some dates /\
    length window = 28%nat /\
    firstn 28 dates = window /\
    nth_error dates 0 = Some (firstDelivery today).
Proof.
  destruct (generateDates_nonpositive today 0 ltac:(lia))
    as (window & cursor & Hrun & Hlen & _ & Hone).
  pose proof (window_run_members _ _ _ Hrun) as Hmem.
  destruct (window_loop today) as (window' & cursor' & Hrun' & Hinv).
  rewrite Hrun in Hrun'. injection Hrun' as <- <-.
  pose proof (window_first _ _ _ Hmem Hinv) as Hfirst.
  assert (Hprefix : forall padding, firstn 28 (window ++ padding) = window).
  { intros padding. rewrite <- Hlen. rewrite firstn_app, firstn_all.
    rewrite Nat.sub_diag. cbn [firstn]. apply app_nil_r. }
  assert (Hhead : forall padding,
             nth_error (window ++ padding) 0 = Some (firstDelivery today)).
  { intros padding. rewrite nth_error_app1 by lia. assumption. }
  destruct (Z.lt_ge_cases 0 groupSize) as [Hpos | Hneg].
  - destruct (generateDates_phases today groupSize Hpos)
      as (w & c & Hrunw & _ & Hcases).
    rewrite Hrun in Hrunw. injection Hrunw as <- <-.
    destruct Hcases as [[_ Hgen] | (_ & padding & _ & _ & _ & Hgen)].
    + exists window, window. rewrite <- (app_nil_r window) at 4 6.
      repeat split; auto.
    + exists window, (window ++ padding). repeat split; auto.
  - destruct (generateDates_nonpositive today groupSize Hneg)
      as (w & c & Hrunw & _ & Hgen & _).
    rewrite Hrun in Hrunw. injection Hrunw as <- <-.
    exists window, window. rewrite <- (app_nil_r window) at 4 6.
    repeat split; auto.
Qed.

(** ** The groups of [groupDates], one by one *)

Lemma chunk_length (dates : list Date) (size : Z) (k : nat) :
  0 < size -> Z.of_nat k * size <= Z.of_nat (length dates) ->
  Z.of_nat (length (chunk dates size k))
  = Z.min size (Z.of_nat (length dates) - Z.of_nat k * size).
Proof.
  intros Hs Hk. unfold chunk. rewrite length_firstn, length_skipn. nia.
Qed.

Lemma group_body_chunks (dates : list Date) (groupSize : Z) (st : GroupState) :
  0 < groupSize ->
  group_chunks dates groupSize st -> group_cond dates st = true ->
  group_chunks dates groupSize (group_body dates groupSize st).
Proof.
  intros Hg. destruct st as [grouped i].
  intros [Hi Hch _]; cbn [grp_grouped grp_i] in *.
  unfold group_cond, group_body; cbn [grp_grouped grp_i].
  rewrite Z.ltb_lt. intros Hlt.
  destruct (slice_chunk dates i groupSize) as [Hslice _]; [lia | lia |].
  constructor; cbn [grp_grouped grp_i].
  - rewrite length_app; cbn [length]. lia.
  - rewrite length_app; cbn [length]. rewrite Nat.add_1_r, seq_S, map_app.
    cbn [map Nat.add]. rewrite <- Hch. f_equal. f_equal.
    rewrite Hslice. unfold chunk. do 2 f_equal.
    rewrite Hi, Z2Nat.inj_mul, Nat2Z.id by lia. reflexivity.
  - intros _. lia.
Qed.

Lemma group_run_chunks (dates : list Date) (groupSize : Z)
      (groups : list (list Date)) :
  0 < groupSize -> groupDates dates groupSize = Some groups ->
  Z.of_nat (length groups)
  = (Z.of_nat (length dates) + groupSize - 1) / groupSize /\
  groups = map (chunk dates groupSize) (seq 0 (length groups)).
Proof.
  intros Hg. unfold groupDates, groupDates_run.
  destruct (while _ _ _ _) as [[grouped i]|] eqn:Hrun; [|discriminate].
  cbn [option_map grp_grouped]. intros [= <-].
  pose proof (while_exit _ _ _ _ _ Hrun) as Hexit.
  unfold group_cond in Hexit; cbn [grp_i] in Hexit. apply Z.ltb_ge in Hexit.
  assert (Hinv : group_chunks dates groupSize (mkGroup grouped i)).
  { revert Hrun.
    apply (while_invariant (group_cond dates) (group_body dates groupSize)
             (group_chunks dates groupSize)).
    - intros st. apply group_body_chunks; assumption.
    - constructor; cbn [grp_grouped grp_i length seq map];
        [lia | reflexivity | congruence]. }
  destruct Hinv as [Hi Hch Hbegan]; cbn [grp_grouped grp_i] in *.
  split; [|assumption].
  destruct grouped as [|g0 grouped'].
  - cbn [length] in *. symmetry. apply Z.div_small. lia.
  - specialize (Hbegan ltac:(discriminate)).
    set (n := Z.of_nat (length (g0 :: grouped'))) in *.
    apply Z.div_unique with (r := Z.of_nat (length dates)
                                   + groupSize - 1 - groupSize * n);
      nia.
Qed.

(** X3. For a positive size [groupDates] returns the number of elements divided
    by the size, rounded up, many groups; the [k]-th holds the elements
    from index [k * groupSize] on, [groupSize] of them or as many as are
    left. *)
Theorem groupDates_nth_group (dates : list Date) (groupSize : Z) :
  0 < groupSize ->
  exists groups,
    groupDates dates groupSize = Some groups /\
    Z.of_nat (length groups)
    = (Z.of_nat (length dates) + groupSize - 1) / groupSize /\
    forall k, (k < length groups)%nat ->
      nth_error groups k
      = Some (firstn (Z.to_nat groupSize)
                     (skipn (k * Z.to_nat groupSize) dates)).
Proof.
  intros Hg.
  destruct (group_loop dates groupSize Hg) as (groups & Hrun & _).
  destruct (group_run_chunks dates groupSize groups Hg Hrun) as [Hn Hch].
  exists groups. split; [assumption|]. split; [assumption|].
  intros k Hk. rewrite Hch at 1.
  rewrite nth_error_map, nth_error_seq.
  apply Nat.ltb_lt in Hk. rewrite Hk. reflexivity.
Qed.

Lemma groupDates_nth_group_witness :
  exists groups,
    groupDates [20759; 20760; 20761; 20762; 20763] 2 = Some groups /\
    Z.of_nat (length groups)
    = (Z.of_nat (length [20759; 20760; 20761; 20762; 20763]) + 2 - 1) / 2 /\
    forall k, (k < length groups)%nat ->
      nth_error groups k
      = Some (firstn (Z.to_nat 2)
                     (skipn (k * Z.to_nat 2)
                            [20759; 20760; 20761; 20762; 20763])).
Proof.
  apply (groupDates_nth_group [20759; 20760; 20761; 20762; 20763] 2). lia.
Defined.

(** When the size divides the number of elements, every group is full. *)
Lemma groupDates_exact (dates : list Date) (groupSize m : Z) :
  0 < groupSize -> Z.of_nat (length dates) = m * groupSize ->
  exists groups,
    groupDates dates groupSize = Some groups /\
    Z.of_nat (length groups) = m /\
    Forall (fun group => Z.of_nat (length group) = groupSize) groups.
Proof.
  intros Hg Hlen.
  destruct (group_loop dates groupSize Hg) as (groups & Hrun & _).
  destruct (group_run_chunks dates groupSize groups Hg Hrun) as [Hn Hch].
  assert (Hm : Z.of_nat (length groups) = m).
  { rewrite Hn, Hlen.
    replace (m * groupSize + groupSize - 1) with (groupSize - 1 + m * groupSize)
      by lia.
    rewrite Z.div_add by lia. rewrite Z.div_small by lia. lia. }
  exists groups. split; [assumption|]. split; [assumption|].
  rewrite Hch. apply Forall_forall. intros group Hin.
  apply in_map_iff in Hin as (k & <- & Hk). apply in_seq in Hk.
  rewrite chunk_length by nia. nia.
Qed.

(** X4. The padding does what it is there for: for a positive size, all the
    groups that [groupDates] makes of the result of [generateDates] are
    full, and they hold its 28 dates and the padding between them. *)
Theorem groupDates_generateDates_full (today : Date) (groupSize : Z) :
  0 < groupSize ->
  exists dates groups,
    generateDates today groupSize = Some dates /\
    groupDates dates groupSize = Some groups /\
    Forall (fun group => Z.of_nat (length group) = groupSize) groups /\
    Z.of_nat (length groups) * groupSize = 28 + extraNeeded groupSize.
Proof.
  intros Hg.
  destruct (generateDates_length today groupSize Hg) as (dates & Hgen & Hlen).
  assert (Hmul : exists m, 28 + extraNeeded groupSize = m * groupSize).
  { unfold extraNeeded. destruct (28 mod groupSize =? 0) eqn:E.
    - apply Z.eqb_eq in E. exists (28 / groupSize).
      pose proof (Z.div_mod 28 groupSize ltac:(lia)). lia.
    - exists (28 / groupSize + 1).
      pose proof (Z.div_mod 28 groupSize ltac:(lia)). lia. }
  destruct Hmul as (m & Hm).
  destruct (groupDates_exact dates groupSize m Hg ltac:(lia))
    as (groups & Hrun & Hcount & Hfull).
  exists dates, groups. repeat split; try assumption. lia.
Qed.

Lemma groupDates_generateDates_full_witness :
  exists dates groups,
    generateDates 20759 5 = Some dates /\
    groupDates dates 5 = Some groups /\
    Forall (fun group => Z.of_nat (length group) = 5) groups /\
    Z.of_nat (length groups) * 5 = 28 + extraNeeded 5.
Proof. apply (groupDates_generateDates_full 20759 5). lia. Defined.

(** ** The calendar *)

Ltac euclid := Z.to_euclidean_division_equations; lia.

Lemma getDate_stages (d : Date) :
  getDate d = dateOfYear (dayOfYear (dayOfEra d)).
Proof. reflexivity. Qed.

Lemma dayOfEra_range (d : Date) : 0 <= dayOfEra d < 146097.
Proof. unfold dayOfEra. euclid. Qed.

(** The year of the era is the one whose days include the day. *)
Lemma yearOfEra_spec (doe : Z) :
  0 <= doe < 146097 ->
  0 <= yearOfEra doe <= 399 /\
  yearStart (yearOfEra doe) <= doe /\
  doe < yearStart (yearOfEra doe + 1)
        + (if yearOfEra doe =? 399 then 1 else 0).
Proof.
  intros H. unfold yearStart, yearOfEra.
  set (y := (doe - doe / 1460 + doe / 36524 - doe / 146096) / 365).
  assert (Hy : y = (doe - doe / 1460 + doe / 36524 - doe / 146096) / 365)
    by reflexivity.
  clearbody y.
  destruct (y =? 399) eqn:E;
    [apply Z.eqb_eq in E | apply Z.eqb_neq in E]; euclid.
Qed.

Lemma yearStart_mono (y y' : Z) :
  0 <= y -> y + 1 <= y' -> yearStart y + 365 <= yearStart y'.
Proof. unfold yearStart. intros. euclid. Qed.

Lemma yearStart_step (y : Z) :
  0 <= y -> 365 <= yearStart (y + 1) - yearStart y <= 366.
Proof. unfold yearStart. intros. euclid. Qed.

Lemma dayOfYear_range (doe : Z) :
  0 <= doe < 146097 -> 0 <= dayOfYear doe <= 365.
Proof.
  intros H. destruct (yearOfEra_spec doe H) as (Hr & Hlo & Hhi).
  unfold dayOfYear. pose proof (yearStart_step (yearOfEra doe) ltac:(lia)).
  destruct (yearOfEra doe =? 399) eqn:E; [|lia].
  apply Z.eqb_eq in E. rewrite E in *.
  change (yearStart (399 + 1)) with 146096 in *.
  change (yearStart 399) with 145731 in *. lia.
Qed.

Lemma monthIndex_range (doy : Z) :
  0 <= doy <= 365 -> 0 <= monthIndex doy <= 11.
Proof. unfold monthIndex. intros. euclid. Qed.

Lemma getMonth_range (d : Date) : 0 <= getMonth d <= 11.
Proof.
  unfold getMonth.
  pose proof (monthIndex_range _ (dayOfYear_range _ (dayOfEra_range d))).
  destruct (_ <? 10) eqn:E; [apply Z.ltb_lt in E | apply Z.ltb_ge in E]; lia.
Qed.

(** Year, month and day give the day number back. *)
Lemma days_from_civil_of_date (d : Date) :
  days_from_civil (getFullYear d) (getMonth d) (getDate d) = d.
Proof.
  rewrite getDate_stages.
  unfold days_from_civil, getFullYear, getMonth, dateOfYear. cbv zeta.
  pose proof (dayOfEra_range d) as Hdoe.
  destruct (yearOfEra_spec _ Hdoe) as (Hyoe & _ & _).
  pose proof (dayOfYear_range _ Hdoe) as Hdoy.
  pose proof (monthIndex_range _ Hdoy) as Hmp.
  assert (Hd : d = (d + 719468) / 146097 * 146097 + dayOfEra d - 719468)
    by (unfold dayOfEra; lia).
  assert (Hy : dayOfEra d
               = yearStart (yearOfEra (dayOfEra d)) + dayOfYear (dayOfEra d))
    by (unfold dayOfYear; lia).
  unfold yearStart in Hy.
  set (doe := dayOfEra d) in *. set (yoe := yearOfEra doe) in *.
  set (doy := dayOfYear doe) in *. set (mp := monthIndex doy) in *.
  set (era := (d + 719468) / 146097) in *.
  clearbody mp doy yoe doe era.
  destruct (mp <? 10) eqn:E; [apply Z.ltb_lt in E | apply Z.ltb_ge in E].
  - replace (mp + 2 <=? 1) with false by (symmetry; apply Z.leb_gt; lia).
    replace (mp + 2 - 2) with mp by lia.
    replace ((yoe + era * 400 + 0) / 400) with era by euclid.
    euclid.
  - replace (mp - 10 <=? 1) with true by (symmetry; apply Z.leb_le; lia).
    replace (mp - 10 + 10) with mp by lia.
    replace ((yoe + era * 400 + 1 - 1) / 400) with era by euclid.
    euclid.
Qed.

Lemma civil_injective (d1 d2 : Date) :
  getFullYear d1 = getFullYear d2 -> getMonth d1 = getMonth d2 ->
  getDate d1 = getDate d2 -> d1 = d2.
Proof.
  intros Hy Hm Hd.
  rewrite <- (days_from_civil_of_date d1), <- (days_from_civil_of_date d2).
  rewrite Hy, Hm, Hd. reflexivity.
Qed.

(** A week later the day of the month is seven more, or the month has
    changed: then the new day is at most the 7th and the old one at least
    the 22nd. *)
Lemma dayOfYear_week (d : Date) :
  dayOfYear (dayOfEra (d + 7)) = dayOfYear (dayOfEra d) + 7 \/
  (0 <= dayOfYear (dayOfEra (d + 7)) <= 6 /\
   358 <= dayOfYear (dayOfEra d) <= 365).
Proof.
  pose proof (dayOfEra_range d) as Hdoe.
  pose proof (dayOfEra_range (d + 7)) as Hdoe'.
  assert (Hstep : dayOfEra (d + 7) = dayOfEra d + 7 \/
                  dayOfEra (d + 7) = dayOfEra d + 7 - 146097)
    by (unfold dayOfEra in *; euclid).
  destruct (yearOfEra_spec _ Hdoe) as (Hr & Hlo & Hhi).
  destruct (yearOfEra_spec _ Hdoe') as (Hr' & Hlo' & Hhi').
  unfold dayOfYear.
  set (doe := dayOfEra d) in *. set (doe' := dayOfEra (d + 7)) in *.
  set (y := yearOfEra doe) in *. set (y' := yearOfEra doe') in *.
  clearbody doe doe' y y'.
  pose proof (yearStart_step y ltac:(lia)) as Hs.
  assert (H399 : yearStart 399 = 145731) by reflexivity.
  assert (H400 : yearStart 400 = 146096) by reflexivity.
  assert (H0 : yearStart 0 = 0) by reflexivity.
  destruct Hstep as [Hst | Hst].
  - destruct (Z.lt_trichotomy y' y) as [Hlt | [Heq | Hgt]].
    + exfalso.
      replace (y' =? 399) with false in Hhi'
        by (symmetry; apply Z.eqb_neq; lia).
      destruct (Z.eq_dec (y' + 1) y) as [Hy | Hne]; [rewrite Hy in Hhi'; lia|].
      pose proof (yearStart_mono (y' + 1) y ltac:(lia) ltac:(lia)). lia.
    + left. rewrite Heq. lia.
    + right.
      replace (y =? 399) with false in Hhi by (symmetry; apply Z.eqb_neq; lia).
      destruct (Z.eq_dec (y + 1) y') as [Hy | Hne].
      * rewrite <- Hy in *. lia.
      * exfalso.
        pose proof (yearStart_mono (y + 1) y' ltac:(lia) ltac:(lia)). lia.
  - right.
    assert (Hy' : y' = 0).
    { destruct (Z.eq_dec y' 0) as [|Hne]; [assumption|]. exfalso.
      pose proof (yearStart_mono 0 y' ltac:(lia) ltac:(lia)). lia. }
    assert (Hy : y = 399).
    { destruct (Z.eq_dec y 399) as [|Hne]; [assumption|]. exfalso.
      replace (y =? 399) with false in Hhi by (symmetry; apply Z.eqb_neq; lia).
      destruct (Z.eq_dec (y + 1) 399) as [Hy | Hne'];
        [rewrite Hy in Hhi; lia|].
      pose proof (yearStart_mono (y + 1) 399 ltac:(lia) ltac:(lia)). lia. }
    subst y y'. lia.
Qed.

Lemma dateOfYear_week (doy : Z) :
  0 <= doy -> doy + 7 <= 365 ->
  dateOfYear (doy + 7) = dateOfYear doy + 7 \/
  (dateOfYear (doy + 7) <= 7 /\ 22 <= dateOfYear doy).
Proof. unfold dateOfYear, monthIndex. intros. euclid. Qed.

Lemma dateOfYear_edges (doy : Z) :
  (0 <= doy <= 6 -> dateOfYear doy = doy + 1) /\
  (358 <= doy <= 365 -> 22 <= dateOfYear doy).
Proof. unfold dateOfYear, monthIndex. split; intros; euclid. Qed.

Lemma getDate_week (d : Date) :
  getDate (d + 7) = getDate d + 7 \/
  (getDate (d + 7) <= 7 /\ 22 <= getDate d).
Proof.
  rewrite !getDate_stages.
  pose proof (dayOfYear_range _ (dayOfEra_range d)) as Hr.
  pose proof (dayOfYear_range _ (dayOfEra_range (d + 7))) as Hr'.
  destruct (dayOfYear_week d) as [Hw | [Hw1 Hw2]].
  - rewrite Hw. apply dateOfYear_week; lia.
  - right. destruct (dateOfYear_edges (dayOfYear (dayOfEra (d + 7)))) as [He _].
    destruct (dateOfYear_edges (dayOfYear (dayOfEra d))) as [_ He'].
    rewrite He by lia. split; [lia | apply He'; lia].
Qed.

(** ** Strings of digits *)

Lemma string_app_assoc (a b c : string) :
  String.append (String.append a b) c = String.append a (String.append b c).
Proof. induction a as [|x a IH]; cbn; [reflexivity | rewrite IH; reflexivity]. Qed.

Lemma string_app_length (a b : string) :
  String.length (String.append a b) = (String.length a + String.length b)%nat.
Proof. induction a as [|x a IH]; cbn; [reflexivity | rewrite IH; reflexivity]. Qed.

(** Two prefixes of one length are cut off together. *)
Lemma string_app_inj_length (a a' b b' : string) :
  String.length a = String.length a' ->
  String.append a b = String.append a' b' -> a = a' /\ b = b'.
Proof.
  revert a'; induction a as [|x a IH]; intros [|x' a'] Hlen H;
    cbn in Hlen; try discriminate.
  - split; [reflexivity | exact H].
  - cbn in H. injection H as -> H. injection Hlen as Hlen.
    destruct (IH a' Hlen H) as [-> ->]. split; reflexivity.
Qed.

(** Two runs of digits that end where no digit follows are cut off
    together. *)
Lemma digits_split (a a' b b' : string) :
  all_digits a = true -> all_digits a' = true ->
  no_digit_ahead b = true -> no_digit_ahead b' = true ->
  String.append a b = String.append a' b' -> a = a' /\ b = b'.
Proof.
  revert a'; induction a as [|x a IH]; intros [|x' a'] Ha Ha' Hb Hb' H;
    cbn in H, Ha, Ha'.
  - split; [reflexivity | exact H].
  - subst b. cbn in Hb. apply andb_prop in Ha' as [Hx _].
    rewrite Hx in Hb. discriminate.
  - subst b'. cbn in Hb'. apply andb_prop in Ha as [Hx _].
    rewrite Hx in Hb'. discriminate.
  - injection H as -> H.
    apply andb_prop in Ha as [_ Ha]. apply andb_prop in Ha' as [_ Ha'].
    destruct (IH a' Ha Ha' Hb Hb' H) as [-> ->]. split; reflexivity.
Qed.

Lemma all_digits_app (a b : string) :
  all_digits (String.append a b) = all_digits a && all_digits b.
Proof.
  induction a as [|x a IH]; cbn; [reflexivity|].
  rewrite IH, andb_assoc. reflexivity.
Qed.

Lemma digits_value_app (a b : string) (acc : Z) :
  digits_value (String.append a b) acc = digits_value b (digits_value a acc).
Proof. revert acc; induction a as [|x a IH]; intros acc; cbn; auto. Qed.

Lemma digit_char_spec (n : Z) :
  0 <= n <= 9 ->
  is_digit (digit_char n) = true /\ char_code (digit_char n) - 48 = n.
Proof.
  intros H. rewrite <- (Z2Nat.id n) by lia.
  assert (Hk : (Z.to_nat n < 10)%nat) by lia.
  revert Hk. generalize (Z.to_nat n) as k. intros k Hk.
  do 10 (destruct k as [|k]; [split; reflexivity|]). lia.
Qed.

Lemma decimal_digits_spec (fuel : nat) :
  forall n, 0 <= n < 2 ^ Z.of_nat fuel ->
    all_digits (decimal_digits fuel n) = true /\
    digits_value (decimal_digits fuel n) 0 = n.
Proof.
  induction fuel as [|fuel IH]; intros n Hn.
  - cbn in *. split; [reflexivity | lia].
  - rewrite Nat2Z.inj_succ, Z.pow_succ_r in Hn by lia.
    cbn [decimal_digits].
    destruct (n <? 10) eqn:E; [apply Z.ltb_lt in E | apply Z.ltb_ge in E].
    + destruct (digit_char_spec n ltac:(lia)) as [Hd Hv].
      cbn [all_digits digits_value]. rewrite Hd, Hv.
      split; [reflexivity | lia].
    + destruct (IH (n / 10)) as [Hall Hval]; [euclid|].
      destruct (digit_char_spec (n mod 10)) as [Hd Hv]; [euclid|].
      rewrite all_digits_app, digits_value_app, Hall, Hval.
      cbn [all_digits digits_value]. rewrite Hd, Hv.
      split; [reflexivity | euclid].
Qed.

Lemma decimal_spec (n : Z) :
  0 <= n -> all_digits (decimal n) = true /\ digits_value (decimal n) 0 = n.
Proof.
  intros Hn. apply decimal_digits_spec.
  rewrite Nat2Z.inj_succ, Z2Nat.id by apply Z.log2_nonneg.
  destruct (Z.eq_dec n 0) as [-> | Hne]; [cbn; lia|].
  pose proof (Z.log2_spec n ltac:(lia)). lia.
Qed.

Lemma repeat_zero_spec (k : nat) (s : string) :
  all_digits (String.append (repeat_char "0" k) s) = all_digits s /\
  digits_value (String.append (repeat_char "0" k) s) 0 = digits_value s 0.
Proof.
  induction k as [|k [IH1 IH2]]; cbn; [split; reflexivity|].
  rewrite IH1. split; [reflexivity | exact IH2].
Qed.

(** A number written with zeros in front is made of digits, is at least as
    long as asked, and reads back as the number. *)
Lemma zero_padded_spec (n : Z) (minLength : nat) :
  0 <= n ->
  all_digits (zero_padded n minLength) = true /\
  digits_value (zero_padded n minLength) 0 = n /\
  (minLength <= String.length (zero_padded n minLength))%nat.
Proof.
  intros Hn. unfold zero_padded, padStart.
  destruct (decimal_spec n Hn) as [Hall Hval].
  destruct (repeat_zero_spec (minLength - String.length (decimal n))
              (decimal n)) as [H1 H2].
  rewrite H1, H2, Hall, Hval. repeat split.
  rewrite string_app_length.
  assert (Hrep : forall c k, String.length (repeat_char c k) = k)
    by (intros c k; induction k; cbn; congruence).
  rewrite Hrep. lia.
Qed.

(** ** [toDateString] can be read back *)

Lemma weekday_name_length (n : Z) : String.length (weekday_name n) = 3%nat.
Proof.
  unfold weekday_name.
  repeat match goal with
         | |- context [match ?x with _ => _ end] => destruct x
         end; reflexivity.
Qed.

Lemma month_name_length (n : Z) : String.length (month_name n) = 3%nat.
Proof.
  unfold month_name.
  repeat match goal with
         | |- context [match ?x with _ => _ end] => destruct x
         end; reflexivity.
Qed.

Lemma month_name_injective (m1 m2 : Z) :
  0 <= m1 <= 11 -> 0 <= m2 <= 11 -> month_name m1 = month_name m2 -> m1 = m2.
Proof.
  intros H1 H2.
  assert (Hc1 : m1 = 0 \/ m1 = 1 \/ m1 = 2 \/ m1 = 3 \/ m1 = 4 \/ m1 = 5 \/
                m1 = 6 \/ m1 = 7 \/ m1 = 8 \/ m1 = 9 \/ m1 = 10 \/ m1 = 11)
    by lia.
  assert (Hc2 : m2 = 0 \/ m2 = 1 \/ m2 = 2 \/ m2 = 3 \/ m2 = 4 \/ m2 = 5 \/
                m2 = 6 \/ m2 = 7 \/ m2 = 8 \/ m2 = 9 \/ m2 = 10 \/ m2 = 11)
    by lia.
  clear H1 H2.
  repeat (destruct Hc1 as [-> | Hc1]); try subst m1;
    repeat (destruct Hc2 as [-> | Hc2]); try subst m2;
    cbn; intros H; (reflexivity || discriminate H).
Qed.

Lemma signed_year_injective (y1 y2 : Z) (r1 r2 : string) :
  no_digit_ahead r1 = true -> no_digit_ahead r2 = true ->
  String.append (if y1 <? 0 then "-" else "")
                (String.append (zero_padded (Z.abs y1) 4) r1)
  = String.append (if y2 <? 0 then "-" else "")
                  (String.append (zero_padded (Z.abs y2) 4) r2) ->
  y1 = y2 /\ r1 = r2.
Proof.
  intros Hr1 Hr2.
  destruct (zero_padded_spec (Z.abs y1) 4 (Z.abs_nonneg y1))
    as (Ha1 & Hv1 & Hl1).
  destruct (zero_padded_spec (Z.abs y2) 4 (Z.abs_nonneg y2))
    as (Ha2 & Hv2 & Hl2).
  assert (Hhead : forall s r, all_digits s = true ->
                    (4 <= String.length s)%nat ->
                    String.append s r <> String "-" (String.append s r) /\
                    forall t, String.append s r <> String "-" t).
  { intros [|c s] r Hs Hlen; [cbn in Hlen; lia|].
    cbn in Hs. apply andb_prop in Hs as [Hc _].
    split; intros; cbn; intros [= -> _]; discriminate Hc. }
  destruct (y1 <? 0) eqn:E1; destruct (y2 <? 0) eqn:E2;
    [apply Z.ltb_lt in E1; apply Z.ltb_lt in E2
    |apply Z.ltb_lt in E1; apply Z.ltb_ge in E2
    |apply Z.ltb_ge in E1; apply Z.ltb_lt in E2
    |apply Z.ltb_ge in E1; apply Z.ltb_ge in E2]; cbn [String.append]; intros H.
  - injection H as H.
    destruct (digits_split _ _ _ _ Ha1 Ha2 Hr1 Hr2 H) as [Heq ->].
    split; [|reflexivity]. rewrite Heq in Hv1. lia.
  - exfalso. symmetry in H.
    exact (proj2 (Hhead _ r2 Ha2 Hl2) _ H).
  - exfalso. exact (proj2 (Hhead _ r1 Ha1 Hl1) _ H).
  - destruct (digits_split _ _ _ _ Ha1 Ha2 Hr1 Hr2 H) as [Heq ->].
    split; [|reflexivity]. rewrite Heq in Hv1. lia.
Qed.

(** What follows a date string, when it does not begin with a digit, can be
    told from the date string, and the date string tells the day. *)
Lemma toDateString_split (d1 d2 : Date) (r1 r2 : string) :
  no_digit_ahead r1 = true -> no_digit_ahead r2 = true ->
  String.append (toDateString d1) r1 = String.append (toDateString d2) r2 ->
  d1 = d2 /\ r1 = r2.
Proof.
  intros Hr1 Hr2. unfold toDateString.
  rewrite !string_app_assoc. intros H.
  apply string_app_inj_length in H as [_ H];
    [|rewrite !weekday_name_length; reflexivity].
  cbn [String.append] in H. injection H as H.
  apply string_app_inj_length in H as [Hm H];
    [|rewrite !month_name_length; reflexivity].
  apply month_name_injective in Hm; try apply getMonth_range.
  cbn [String.append] in H. injection H as H.
  pose proof (getDate_range d1) as Hd1. pose proof (getDate_range d2) as Hd2.
  destruct (zero_padded_spec (getDate d1) 2 ltac:(lia)) as (Ha1 & Hv1 & _).
  destruct (zero_padded_spec (getDate d2) 2 ltac:(lia)) as (Ha2 & Hv2 & _).
  apply digits_split in H as [Hd H]; try assumption; try reflexivity.
  cbn [String.append] in H. injection H as H.
  apply signed_year_injective in H as [Hy Hr]; try assumption.
  split; [|assumption].
  apply civil_injective; try assumption.
  rewrite Hd in Hv1. lia.
Qed.

Lemma toDateString_injective (d1 d2 : Date) :
  toDateString d1 = toDateString d2 -> d1 = d2.
Proof.
  intros H.
  assert (Hnil : forall s, String.append s "" = s)
    by (intros s; induction s; cbn; congruence).
  apply (toDateString_split d1 d2 "" ""); try reflexivity.
  rewrite !Hnil. assumption.
Qed.

(** ** Objects *)

Lemma obj_get_set_same (obj : SelectedSlots) (key : string) (value : bool) :
  obj_get (obj_set obj key value) key = Some value.
Proof.
  induction obj as [|[k v] rest IH]; cbn.
  - rewrite String.eqb_refl. reflexivity.
  - destruct (String.eqb k key) eqn:E; cbn; rewrite E; [reflexivity | exact IH].
Qed.

Lemma obj_get_set_other (obj : SelectedSlots) (key key' : string)
      (value : bool) :
  key' <> key -> obj_get (obj_set obj key value) key' = obj_get obj key'.
Proof.
  intros Hne. induction obj as [|[k v] rest IH]; cbn.
  - replace (String.eqb key key') with false; [reflexivity|].
    symmetry. apply String.eqb_neq. congruence.
  - destruct (String.eqb k key) eqn:E; cbn.
    + apply String.eqb_eq in E. subst k.
      replace (String.eqb key key') with false; [reflexivity|].
      symmetry. apply String.eqb_neq. congruence.
    + destruct (String.eqb k key'); [reflexivity | exact IH].
Qed.

(** ** Keys *)

(** The key of a cell tells its date and its slot. *)
Lemma selectionKey_injective (d1 d2 : Date) (s1 s2 : string) :
  selectionKey d1 s1 = selectionKey d2 s2 -> d1 = d2 /\ s1 = s2.
Proof.
  unfold selectionKey. intros H.
  apply toDateString_split in H as [Hd Hs]; try reflexivity.
  split; [assumption|]. cbn in Hs. congruence.
Qed.

Lemma handleSelect_cell_aux (date : Date) (slot : string)
      (prev : SelectedSlots) :
  isSelected (handleSelect date slot prev) date slot
  = Some (negb (truthy (isSelected prev date slot))) /\
  forall date' slot',
    (date', slot') <> (date, slot) ->
    isSelected (handleSelect date slot prev) date' slot'
    = isSelected prev date' slot'.
Proof.
  unfold isSelected, handleSelect. split.
  - apply obj_get_set_same.
  - intros date' slot' Hne. apply obj_get_set_other. intros Hkey.
    apply selectionKey_injective in Hkey as [-> ->]. congruence.
Qed.

(** X5. [handleSelect] flips the cell it is called for: what was selected is
    stored as [false], what was not (or was never touched) as [true]; the
    value read for any other date or slot is what it was. *)
Theorem handleSelect_cell (date date' : Date) (slot slot' : string)
        (prev : SelectedSlots) :
  isSelected (handleSelect date slot prev) date slot
  = Some (negb (truthy (isSelected prev date slot))) /\
  ((date', slot') <> (date, slot) ->
   isSelected (handleSelect date slot prev) date' slot'
   = isSelected prev date' slot').
Proof.
  destruct (handleSelect_cell_aux date slot prev) as [H1 H2].
  split; [assumption | apply H2].
Qed.

Lemma handleSelect_cell_witness :
  isSelected (handleSelect 20759 "AM" []) 20759 "AM"
  = Some (negb (truthy (isSelected [] 20759 "AM"))) /\
  isSelected (handleSelect 20759 "AM" []) 20759 "PM"
  = isSelected [] 20759 "PM".
Proof.
  split.
  - apply (handleSelect_cell 20759 20759 "AM" "PM" []).
  - apply (handleSelect_cell 20759 20759 "AM" "PM" []). discriminate.
Defined.

(** X6. Two calls of [handleSelect] for one cell leave every cell as selected
    or not as it was; the cell itself is then stored as a boolean, also
    when it was [undefined] before. *)
Theorem handleSelect_twice (date date' : Date) (slot slot' : string)
        (prev : SelectedSlots) :
  let twice := handleSelect date slot (handleSelect date slot prev) in
  truthy (isSelected twice date' slot') = truthy (isSelected prev date' slot')
  /\ isSelected twice date slot = Some (truthy (isSelected prev date slot)).
Proof.
  cbv zeta.
  destruct (handleSelect_cell_aux date slot prev) as [H1 H2].
  destruct (handleSelect_cell_aux date slot (handleSelect date slot prev))
    as [H1' H2'].
  assert (Hsame : isSelected (handleSelect date slot (handleSelect date slot prev))
                    date slot = Some (truthy (isSelected prev date slot))).
  { rewrite H1', H1.
    destruct (truthy (isSelected prev date slot)); reflexivity. }
  split; [|assumption].
  destruct (Z.eq_dec date' date) as [-> | Hd].
  - destruct (string_dec slot' slot) as [-> | Hs].
    + rewrite Hsame. cbn [truthy].
      destruct (truthy (isSelected prev date slot)); reflexivity.
    + rewrite H2', H2 by congruence. reflexivity.
  - rewrite H2', H2 by congruence. reflexivity.
Qed.

(** ** Clicks *)

Lemma isUnavailable_wednesday (date : Date) (slot : string) (flag : bool) :
  getDay date = 3 ->
  isUnavailable date slot flag
  = if flag then status_unavailable else status_false.
Proof.
  intros Hw. unfold isUnavailable. rewrite Hw.
  change (3 =? 3) with true. change (3 =? 5) with false.
  destruct flag; reflexivity.
Qed.

(** X7. The selection does not follow the special item.  A Wednesday slot that
    is selected by a click while the flag is off is still selected once the
    flag is on: it is rendered both unavailable and selected, and no click
    deselects it as long as the flag stays on. *)
Theorem wednesday_selection_stuck (date : Date) (slot : string)
        (selectedSlots : SelectedSlots) :
  getDay date = 3 ->
  truthy (isSelected selectedSlots date slot) = false ->
  let selected := clickSlot date slot false selectedSlots in
  truthy (isSelected selected date slot) = true /\
  clickSlot date slot true selected = selected /\
  view_className (Slot date slot (isSelected selected date slot) true)
  = "slot unavailable  selected"%string.
Proof.
  intros Hw Hoff. cbv zeta.
  unfold clickSlot, Slot_onClick, Slot.
  rewrite !(isUnavailable_wednesday _ _ _ Hw). cbn [isUnavailableSlot isFullSlot negb andb view_className].
  destruct (handleSelect_cell_aux date slot selectedSlots) as [H1 _].
  rewrite H1, Hoff. cbn [negb truthy].
  repeat split; reflexivity.
Qed.

Lemma wednesday_selection_stuck_witness :
  let selected := clickSlot 20761 "PM" false [] in
  truthy (isSelected selected 20761 "PM") = true /\
  clickSlot 20761 "PM" true selected = selected /\
  view_className (Slot 20761 "PM" (isSelected selected 20761 "PM") true)
  = "slot unavailable  selected"%string.
Proof.
  apply (wednesday_selection_stuck 20761 "PM" []); reflexivity.
Defined.

(** ** The values of [isUnavailable] *)

Lemma isUnavailable_cases (date : Date) (slot : string) (flag : bool) :
  (isUnavailable date slot flag = status_unavailable <->
   flag = true /\ getDay date = 3) /\
  (isUnavailable date slot flag = status_full <->
   getDay date = 5 /\
   (8 <= getDate date <= 14 \/ 22 <= getDate date <= 28) /\
   slot = "AM"%string).
Proof.
  rewrite <- even_week_of_month_days, even_week_of_month_iff.
  unfold isUnavailable.
  destruct (flag && (getDay date =? 3)) eqn:E1.
  - apply andb_prop in E1 as [-> E3]. apply Z.eqb_eq in E3.
    split; split; intros H; try discriminate H.
    + split; [reflexivity | assumption].
    + reflexivity.
    + exfalso. lia.
  - assert (Hnot : ~ (flag = true /\ getDay date = 3)).
    { intros [-> Hw]. rewrite Hw in E1. discriminate E1. }
    destruct ((getDay date =? 5)
              && (Z.rem (JS.ceil_div (getDate date) 7) 2 =? 0)
              && String.eqb slot "AM") eqn:E2.
    + apply andb_prop in E2 as [E2 Es]. apply andb_prop in E2 as [E5 Ee].
      apply Z.eqb_eq in E5, Ee. apply String.eqb_eq in Es.
      split; split; intros H; try discriminate H; try contradiction.
      * repeat split; assumption.
      * reflexivity.
    + split; split; intros H; try discriminate H; try contradiction.
      destruct H as (H5 & He & Hs).
      rewrite H5, He, Hs in E2. discriminate E2.
Qed.

(** X8. [isUnavailable] returns ['unavailable'] exactly for a Wednesday under
    the special-item flag, whatever the slot, and ['full'] exactly for the
    slot ['AM'] of a Friday that is the 8th to 14th or the 22nd to 28th of
    its month, whatever the flag. *)
Theorem isUnavailable_values (date : Date) (slot : string) (flag : bool) :
  (isUnavailable date slot flag = status_unavailable <->
   flag = true /\ getDay date = 3) /\
  (isUnavailable date slot flag = status_full <->
   getDay date = 5 /\
   (8 <= getDate date <= 14 \/ 22 <= getDate date <= 28) /\
   slot = "AM"%string).
Proof. exact (isUnavailable_cases date slot flag). Qed.

(** X9. The morning slot is never full on two Fridays in a row, and of three
    Fridays in a row it is full on one at least: the second and the fourth
    Friday of every month, so that a fifth Friday is followed by a first
    one with the morning open on both. *)
Theorem friday_mornings (date : Date) (flag : bool) :
  getDay date = 5 ->
  let full d := isUnavailable d "AM" flag = status_full in
  ~ (full date /\ full (addDays date 7)) /\
  (full date \/ full (addDays date 7) \/ full (addDays date 14)).
Proof.
  intros Hf. cbv zeta. unfold addDays.
  assert (Hf7 : getDay (date + 7) = 5)
    by (rewrite <- Hf; apply (getDay_shift date 1)).
  assert (Hf14 : getDay (date + 14) = 5)
    by (rewrite <- Hf; apply (getDay_shift date 2)).
  pose proof (getDate_range date) as Hr.
  pose proof (getDate_range (date + 7)) as Hr7.
  pose proof (getDate_range (date + 14)) as Hr14.
  pose proof (getDate_week date) as Hw.
  pose proof (getDate_week (date + 7)) as Hw7.
  replace (date + 7 + 7) with (date + 14) in Hw7 by lia.
  destruct (isUnavailable_cases date "AM" flag) as [_ H0].
  destruct (isUnavailable_cases (date + 7) "AM" flag) as [_ H7].
  destruct (isUnavailable_cases (date + 14) "AM" flag) as [_ H14].
  rewrite H0, H7, H14. split.
  - intros [(_ & Ha & _) (_ & Hb & _)]. lia.
  - assert (Hcases : (8 <= getDate date <= 14 \/ 22 <= getDate date <= 28) \/
                     (8 <= getDate (date + 7) <= 14 \/
                      22 <= getDate (date + 7) <= 28) \/
                     (8 <= getDate (date + 14) <= 14 \/
                      22 <= getDate (date + 14) <= 28)) by lia.
    destruct Hcases as [H | [H | H]];
      [left | right; left | right; right]; repeat split; assumption.
Qed.

Lemma friday_mornings_witness :
  let full d := isUnavailable d "AM" false = status_full in
  ~ (full 20763 /\ full (addDays 20763 7)) /\
  (full 20763 \/ full (addDays 20763 7) \/ full (addDays 20763 14)).
Proof. apply (friday_mornings 20763 false). reflexivity. Defined.

(** X10. A click on a slot changes nothing when the slot is unavailable (a
    Wednesday under the flag) or full (slot ['AM'], Friday, 8th to 14th or
    22nd to 28th of the month); otherwise it flips the clicked cell.  It
    never changes what is read for another date or slot. *)
Theorem clickSlot_effect (date date' : Date) (slot slot' : string)
        (flag : bool) (selectedSlots : SelectedSlots) :
  let blocked :=
    (flag = true /\ getDay date = 3) \/
    (getDay date = 5 /\
     (8 <= getDate date <= 14 \/ 22 <= getDate date <= 28) /\
     slot = "AM"%string) in
  (blocked -> clickSlot date slot flag selectedSlots = selectedSlots) /\
  (~ blocked ->
   isSelected (clickSlot date slot flag selectedSlots) date slot
   = Some (negb (truthy (isSelected selectedSlots date slot)))) /\
  ((date', slot') <> (date, slot) ->
   isSelected (clickSlot date slot flag selectedSlots) date' slot'
   = isSelected selectedSlots date' slot').
Proof.
  cbv zeta. unfold clickSlot, Slot_onClick.
  destruct (isUnavailable_cases date slot flag) as [Hu Hfu].
  destruct (handleSelect_cell_aux date slot selectedSlots) as [H1 H2].
  destruct (isUnavailable date slot flag) eqn:E;
    cbn [isUnavailableSlot isFullSlot negb andb].
  - split; [reflexivity|]. split; [|reflexivity].
    intros Hnot. exfalso. apply Hnot. left. apply Hu. reflexivity.
  - split; [reflexivity|]. split; [|reflexivity].
    intros Hnot. exfalso. apply Hnot. right. apply Hfu. reflexivity.
  - split; [|split; [intros _; assumption | apply H2]].
    intros [Hb | Hb]; [apply Hu in Hb | apply Hfu in Hb]; discriminate Hb.
Qed.

Lemma clickSlot_effect_witness :
  clickSlot 20770 "AM" false [] = [] /\
  isSelected (clickSlot 20770 "PM" false []) 20770 "PM"
  = Some (negb (truthy (isSelected [] 20770 "PM"))) /\
  isSelected (clickSlot 20770 "PM" false []) 20770 "EVE"
  = isSelected [] 20770 "EVE".
Proof.
  split; [|split].
  - apply (clickSlot_effect 20770 20770 "AM" "AM" false []).
    right. repeat split. left. vm_compute. split; discriminate.
  - apply (clickSlot_effect 20770 20770 "PM" "EVE" false []).
    intros [[H _] | (_ & _ & H)]; discriminate H.
  - apply (clickSlot_effect 20770 20770 "PM" "EVE" false []). discriminate.
Defined.

(** ** Keys of the date blocks *)

Lemma NoDup_map_injective {A B : Type} (f : A -> B) (l : list A)
      (Hinj : forall a b, f a = f b -> a = b) (Hl : NoDup l) :
  NoDup (map f l).
Proof.
  induction Hl as [|x l Hx Hl IH]; cbn; constructor; [|assumption].
  intros Hin. apply in_map_iff in Hin as (y & Hy & Hin).
  apply Hinj in Hy. subst y. contradiction.
Qed.

(** X11. The date blocks that [DateSlotPicker] renders from the result of
    [generateDates] have pairwise different keys and headings: no two of
    the dates have the same [toDateString()]. *)
Theorem date_block_keys_distinct (today : Date) (groupSize : Z) :
  0 < groupSize ->
  exists dates,
    generateDates today groupSize = Some dates /\
    NoDup (map toDateString dates).
Proof.
  intros Hg.
  destruct (generateDates_increasing_aux today groupSize Hg)
    as (dates & Hgen & Hinc).
  exists dates. split; [assumption|].
  apply NoDup_map_injective; [exact toDateString_injective|].
  apply increasing_NoDup; assumption.
Qed.

Lemma date_block_keys_distinct_witness :
  exists dates,
    generateDates 20759 3 = Some dates /\
    NoDup (map toDateString dates).
Proof. apply (date_block_keys_distinct 20759 3). lia. Defined.

(** ** Weeks *)

(** X12. Starting a whole number of weeks later moves every date of the result
    by as many weeks, whatever the size. *)
Theorem generateDates_weekly (today : Date) (weeks groupSize : Z) :
  generateDates (addDays today (7 * weeks)) groupSize
  = option_map (map (fun d => addDays d (7 * weeks)))
               (generateDates today groupSize).
Proof. unfold addDays. apply generateDates_shift. Qed.
